(** * Apple Books highlight sync: a shallow embedding of [src/main.ts]

    The development follows [AppleBooksPlugin.syncHighlights]:

    - [JsString]: the string primitives the function relies on
      ([String.prototype.split], [Array.prototype.join], [endsWith],
      template-literal interpolation);
    - [JsObject]: a plain object literal used as a dictionary, with the
      own-property enumeration order of the language and the members a
      plain object inherits from [Object.prototype];
    - [Vault]: the host's document store, reduced to the four calls the
      function makes;
    - [Sync]: the function itself, written in a small state-and-exception
      monad over the store and the log of issued calls;
    - [Scheme], [Terms], [Fixtures]: the separator scheme as the
      specification words it, the vocabulary of the statements, and concrete
      environments.

    The lemmas follow the definitions, in the order of the pipeline: strings,
    objects, grouping, join, store, write loop, whole runs.

    Strings are sequences of bytes.  The separators, the extension and the
    decimal digits are ASCII, so splitting the UTF-8 bytes and splitting the
    UTF-16 code units of the same text cut it at the same places. *)

From Stdlib Require Import Ascii String List Arith NArith Bool Lia Sorted Permutation.
From stdpp Require Import gmap strings list fin_maps.

#[local] Arguments String.append !_ _ / : simpl nomatch.

(** ** String primitives *)

Module JsString.

(** The double quote and the line feed, which the source writes inside its
    literals. *)
Definition dquote : string := String (ascii_of_nat 34) EmptyString.
Definition lf : string := String (ascii_of_nat 10) EmptyString.

(** [a => !!a] on a string: the empty string is the only falsy one. *)
Definition truthy (a : string) : bool :=
  match a with
  | EmptyString => false
  | String _ _ => true
  end.

(** [s.split(sep)] for a non-empty [sep]: scan left to right, cut at the
    leftmost occurrence, resume after it.  [skip] counts the characters of
    a matched separator that are still to be passed over, [cur] is the
    chunk read so far. *)
Fixpoint split_from (sep s : string) (skip : nat) (cur : string)
  : list string :=
  match s with
  | EmptyString => [cur]
  | String c s' =>
      match skip with
      | S k => split_from sep s' k cur
      | O =>
          if String.prefix sep s
          then cur :: split_from sep s' (String.length sep - 1) EmptyString
          else split_from sep s' 0 (cur +:+ String c EmptyString)
      end
  end.

(** [s.split(sep)].  An empty separator cuts between all characters. *)
Definition split (s sep : string) : list string :=
  match sep with
  | EmptyString =>
      List.map (fun c => String c EmptyString) (list_ascii_of_string s)
  | String _ _ => split_from sep s 0 EmptyString
  end.

(** [xs.join(sep)] on an array of strings. *)
Fixpoint join (sep : string) (xs : list string) : string :=
  match xs with
  | [] => EmptyString
  | [x] => x
  | x :: rest => x +:+ sep +:+ join sep rest
  end.

(** [s.endsWith(suffix)]. *)
Definition endsWith (s suffix : string) : bool :=
  let n := String.length s in
  let k := String.length suffix in
  (k <=? n) && String.eqb (String.substring (n - k) k s) suffix.

(** A value that is a string or [undefined] (reading past the end of an
    array yields [undefined]). *)
Definition jsval := option string.

(** Interpolation [`${v}`] in a template literal. *)
Definition interpolate (v : jsval) : string :=
  match v with
  | Some s => s
  | None => "undefined"
  end.

(** How [join] prints an element: [undefined] becomes the empty string. *)
Definition join_elem (v : jsval) : string :=
  match v with
  | Some s => s
  | None => EmptyString
  end.

End JsString.

Import JsString.

(** ** Plain objects used as dictionaries *)

Module JsObject.

(** The property names a plain object literal [{}] inherits from
    [Object.prototype].  Reading one of them on an object that has no own
    property of that name yields the inherited member (a function, or the
    prototype itself for [__proto__]), which is truthy and is not an
    array. *)
Definition prototype_names : list string :=
  [ "constructor"; "__defineGetter__"; "__defineSetter__";
    "hasOwnProperty"; "__lookupGetter__"; "__lookupSetter__";
    "isPrototypeOf"; "propertyIsEnumerable"; "toString"; "valueOf";
    "__proto__"; "toLocaleString" ].

Definition inherited (k : string) : bool :=
  existsb (String.eqb k) prototype_names.

(** The own properties of an object, in creation order. *)
Definition obj (A : Type) : Type := list (string * A).

(** The result of reading [o[k]]. *)
Inductive lookup (A : Type) : Type :=
| Own (a : A)
| Inherited
| Undefined.
Arguments Own {A} a.
Arguments Inherited {A}.
Arguments Undefined {A}.

Fixpoint get_own {A} (o : obj A) (k : string) : option A :=
  match o with
  | [] => None
  | (k', a) :: rest => if String.eqb k' k then Some a else get_own rest k
  end.

(** [o[k]]: the own property if there is one, else what the prototype
    provides. *)
Definition get {A} (o : obj A) (k : string) : lookup A :=
  match get_own o k with
  | Some a => Own a
  | None => if inherited k then Inherited else Undefined
  end.

(** Truthiness of [o[k]] when the own values are arrays or objects: only
    [undefined] is falsy. *)
Definition present {A} (r : lookup A) : bool :=
  match r with
  | Undefined => false
  | _ => true
  end.

(** Writing an own property: an existing one keeps its place, a new one
    goes last. *)
Fixpoint set_own {A} (o : obj A) (k : string) (a : A) : obj A :=
  match o with
  | [] => [(k, a)]
  | (k', a') :: rest =>
      if String.eqb k' k then (k', a) :: rest
      else (k', a') :: set_own rest k a
  end.

(** [o[k] = a] for an array or object [a].  The name [__proto__] is the
    accessor of [Object.prototype]: the assignment replaces the prototype
    and creates no own property.  Every other name becomes (or stays) an
    own property. *)
Definition assign {A} (o : obj A) (k : string) (a : A) : obj A :=
  if String.eqb k "__proto__" then o else set_own o k a.

(** Array indices: canonical decimal numerals below [2^32 - 1]. *)
Definition digit (c : ascii) : option N :=
  let n := N_of_ascii c in
  if (48 <=? n)%N && (n <=? 57)%N then Some (n - 48)%N else None.

Fixpoint digits (s : string) (acc : N) : option N :=
  match s with
  | EmptyString => Some acc
  | String c s' =>
      match digit c with
      | Some d => digits s' (10 * acc + d)%N
      | None => None
      end
  end.

Definition array_index (k : string) : option N :=
  match k with
  | EmptyString => None
  | String c rest =>
      if Ascii.eqb c "0" && truthy rest then None
      else match digits k 0 with
           | Some n => if (n <? 4294967295)%N then Some n else None
           | None => None
           end
  end.

(** Own property enumeration ([Object.keys], [Object.entries]): array
    indices first, in ascending numeric order, then the other names in
    creation order. *)
Fixpoint insert_index {A} (n : N) (p : string * A)
  (l : list (N * (string * A))) : list (N * (string * A)) :=
  match l with
  | [] => [(n, p)]
  | (m, q) :: rest =>
      if (n <=? m)%N then (n, p) :: l else (m, q) :: insert_index n p rest
  end.

Fixpoint index_props {A} (o : obj A) : list (N * (string * A)) :=
  match o with
  | [] => []
  | (k, a) :: rest =>
      match array_index k with
      | Some n => insert_index n (k, a) (index_props rest)
      | None => index_props rest
      end
  end.

Fixpoint named_props {A} (o : obj A) : obj A :=
  match o with
  | [] => []
  | (k, a) :: rest =>
      match array_index k with
      | Some _ => named_props rest
      | None => (k, a) :: named_props rest
      end
  end.

Definition entries {A} (o : obj A) : list (string * A) :=
  List.map snd (index_props o) ++ named_props o.

Definition keys {A} (o : obj A) : list string :=
  List.map fst (entries o).

End JsObject.

Import JsObject.

(** ** The document store

    The vault is the host application's; the source only calls it.  The
    store below keeps what those calls can observe: which paths hold a file
    or a folder.  As in the host, [create] and [createFolder] do not replace
    what a path already holds: the promise is rejected ("File already
    exists.", "Folder already exists.").  Whether the parent folder of a new
    file exists is not checked. *)

Module Vault.

Inductive entry : Type :=
| File (data : string)
| Folder.

(** What the store holds, keyed by vault path. *)
Abbreviation vault := (gmap string entry).

Inductive rejection : Type :=
| FileAlreadyExists
| FolderAlreadyExists.

(** [q] lies below the folder path [p]. *)
Definition below (p q : string) : bool := String.prefix (p +:+ "/") q.

(** [vault.getAbstractFileByPath(p)]. *)
Definition getAbstractFileByPath (v : vault) (p : string) : option entry :=
  v !! p.

(** [vault.delete(file, true)] for the abstract file at [p]: the entry
    and everything below it go. *)
Definition delete_recursive (v : vault) (p : string) : vault :=
  filter (fun kv => kv.1 <> p /\ below p kv.1 = false) v.

(** [vault.createFolder(p)]: rejected when something is stored at [p]. *)
Definition createFolder (v : vault) (p : string) : rejection + vault :=
  match v !! p with
  | Some _ => inl FolderAlreadyExists
  | None => inr (<[p := Folder]> v)
  end.

(** [vault.create(p, data)]: rejected when something is stored at [p];
    the store never replaces an existing file through this call. *)
Definition create (v : vault) (p data : string) : rejection + vault :=
  match v !! p with
  | Some _ => inl FileAlreadyExists
  | None => inr (<[p := File data]> v)
  end.

(** Nothing is stored below a path at which nothing is stored. *)
Definition rooted (v : vault) (p : string) : Prop :=
  v !! p = None -> forall q, below p q = true -> v !! q = None.

End Vault.

Import Vault.

(** ** The sync function *)

Module Sync.

(** *** Data *)

Record HighlightData : Type := {
  annotationId : jsval;
  selectedText : jsval
}.

(** What [annotationData[bookId]] evaluates to when it is truthy: an array
    of highlights (an own property), or a member inherited from
    [Object.prototype], which has no [push] and no [map]. *)
Inductive highlightsValue : Type :=
| Arr (hs : list HighlightData)
| NotAnArray.

Record SyncedBook : Type := {
  bookId : jsval;
  authorName : jsval;
  bookTitle : jsval;
  highlights : highlightsValue
}.

Record AppleBooksPluginSettings : Type := {
  highlightsFolder : string;
  syncOnStartup : bool
}.

Definition DEFAULT_SETTINGS : AppleBooksPluginSettings :=
  {| highlightsFolder := "Apple Books Highlights"; syncOnStartup := false |}.

(** *** Effects

    The function talks to three collaborators: the file system
    ([fs.readdir]), a child process ([exec]) and the host (notices and the
    vault).  What the first two answer is given by the environment; the vault
    is state.  Every call is logged in the order it is issued. *)

Record env : Type := {
  HOME : jsval;
  (** [None]: the promise of [fs.readdir] is rejected. *)
  readdir : string -> option (list string);
  (** [None]: the promise of [exec] is rejected; [Some out]: its [stdout]. *)
  exec : string -> option string
}.

Inductive call : Type :=
| Readdir (path : string)
| Exec (command : string)
| NewNotice (message : string)
| GetAbstractFileByPath (path : string)
| Delete (path : string)
| CreateFolder (path : string)
| Create (path data : string).

Inductive error : Type :=
| TypeError
| ExecRejected
| VaultRejected (r : rejection).

Inductive result (A : Type) : Type :=
| Ok (a : A)
| Throw (e : error).
Arguments Ok {A} a.
Arguments Throw {A} e.

Record world : Type := {
  store : vault;
  calls : list call
}.

(** State and exception: a thrown error keeps the state reached so far. *)
Definition M (A : Type) : Type := world -> result A * world.

Definition ret {A} (a : A) : M A := fun w => (Ok a, w).

Definition throw {A} (e : error) : M A := fun w => (Throw e, w).

Definition bind {A B} (m : M A) (k : A -> M B) : M B :=
  fun w =>
    match m w with
    | (Ok a, w') => k a w'
    | (Throw e, w') => (Throw e, w')
    end.

Notation "'let*' x ':=' m 'in' k" := (bind m (fun x => k))
  (at level 10, x name, m at level 100, k at level 200).
Notation "m ';;' k" := (bind m (fun _ => k))
  (at level 100, k at level 200, right associativity).

Definition lift {A} (r : result A) : M A := fun w => (r, w).

Definition log (c : call) : M unit :=
  fun w => (Ok tt, {| store := store w; calls := calls w ++ [c] |}).

Definition update (f : vault -> rejection + vault) : M unit :=
  fun w =>
    match f (store w) with
    | inl r => (Throw (VaultRejected r), w)
    | inr v => (Ok tt, {| store := v; calls := calls w |})
    end.

(** [await fs.readdir(path).catch(() => [])]. *)
Definition fs_readdir (e : env) (path : string) : M (list string) :=
  log (Readdir path);;
  ret (match readdir e path with Some files => files | None => [] end).

(** [(await exec(command)).stdout]. *)
Definition child_exec (e : env) (command : string) : M string :=
  log (Exec command);;
  match exec e command with
  | Some stdout => ret stdout
  | None => throw ExecRejected
  end.

Definition notice (message : string) : M unit := log (NewNotice message).

Definition vault_getAbstractFileByPath (path : string) : M (option entry) :=
  log (GetAbstractFileByPath path);;
  fun w => (Ok (getAbstractFileByPath (store w) path), w).

Definition vault_delete (path : string) : M unit :=
  log (Delete path);;
  update (fun v => inr (delete_recursive v path)).

Definition vault_createFolder (path : string) : M unit :=
  log (CreateFolder path);;
  update (fun v => createFolder v path).

Definition vault_create (path data : string) : M unit :=
  log (Create path data);;
  update (fun v => create v path data).

(** *** Paths and commands *)

Definition APPLE_BOOKS_DATA_FOLDER_ABSOLUTE_PATH (e : env) : string :=
  interpolate (HOME e) +:+ "/Library/Containers/com.apple.iBooksX/Data/Documents/".

(** [path.join(dir, name)] for a directory in normal form and a single
    segment: one slash between the two. *)
Definition path_join (dir name : string) : string :=
  if endsWith dir "/" then dir +:+ name else dir +:+ "/" +:+ name.

Definition ANNOTATION_DB_FOLDER_ABSOLUTE_PATH (e : env) : string :=
  path_join (APPLE_BOOKS_DATA_FOLDER_ABSOLUTE_PATH e) "AEAnnotation".

Definition BOOKS_DB_FOLDER_ABSOLUTE_PATH (e : env) : string :=
  path_join (APPLE_BOOKS_DATA_FOLDER_ABSOLUTE_PATH e) "BKLibrary".

Definition annotationDataSelectQuery : string :=
  "SELECT ZANNOTATIONASSETID,ZANNOTATIONUUID,ZANNOTATIONSELECTEDTEXT from ZAEANNOTATION where ZANNOTATIONDELETED = 0 AND ZANNOTATIONSELECTEDTEXT NOT NULL;".

Definition separatorConfig : string :=
  "-cmd " +:+ dquote +:+ ".separator ||| @@@" +:+ dquote.

Definition sqlite3 (db query : string) : string :=
  "sqlite3 --readonly " +:+ separatorConfig +:+ " " +:+ db +:+ " "
    +:+ dquote +:+ query +:+ dquote.

(** [files.filter((fileName) => fileName.endsWith(".sqlite")).first()],
    seen through the test [if (!name)]: [None] when the test sends the
    function to its early return. *)
Definition dbFileName (files : list string) : option string :=
  match hd_error (List.filter (fun fileName => endsWith fileName ".sqlite") files) with
  | Some name => if truthy name then Some name else None
  | None => None
  end.

(** *** Parsing and grouping *)

(** [stdout.split("@@@").filter((a) => !!a)]. *)
Definition rawRows (stdout : string) : list string :=
  List.filter truthy (split stdout "@@@").

(** [rawRows.map((row) => row.split("|||"))]. *)
Definition parseRows (stdout : string) : list (list string) :=
  List.map (fun row => split row "|||") (rawRows stdout).

(** [row[i]]. *)
Definition field (row : list string) (i : nat) : jsval := nth_error row i.

(** A value used as a property name. *)
Definition propertyKey (v : jsval) : string := interpolate v.

(** [xs.reduce(f, acc)] for a callback that may throw. *)
Fixpoint reduce {A B} (f : A -> B -> result A) (xs : list B) (acc : A)
  : result A :=
  match xs with
  | [] => Ok acc
  | x :: rest =>
      match f acc x with
      | Ok acc' => reduce f rest acc'
      | Throw e => Throw e
      end
  end.

(** The callback of the reduction that builds [annotationData]. *)
Definition group (acc : obj (list HighlightData)) (row : list string)
  : result (obj (list HighlightData)) :=
  let key := propertyKey (field row 0) in
  let acc :=
    if negb (present (get acc key)) then assign acc key [] else acc in
  match get acc key with
  | Own hs =>
      Ok (set_own acc key
            (hs ++ [ {| annotationId := field row 1;
                        selectedText := field row 2 |} ]))
  | Inherited | Undefined => Throw TypeError
  end.

Definition annotationData (rows : list (list string))
  : result (obj (list HighlightData)) :=
  reduce group rows [].

(** [Object.keys(annotationData).map((a) => `'${a}'`)]. *)
Definition uniqueBookIds (data : obj (list HighlightData)) : list string :=
  List.map (fun a => "'" +:+ a +:+ "'") (keys data).

Definition booksDataSelectQuery (data : obj (list HighlightData)) : string :=
  "SELECT ZASSETID,ZAUTHOR,ZTITLE from ZBKLIBRARYASSET where ZASSETID in ("
    +:+ join "," (uniqueBookIds data) +:+ ")".

(** *** Join *)

(** One turn of the loop over [booksData]. *)
Definition joinRow (data : obj (list HighlightData))
  (final : obj SyncedBook) (bookData : list string) : obj SyncedBook :=
  let id := field bookData 0 in
  let book value :=
    {| bookId := id;
       authorName := field bookData 1;
       bookTitle := field bookData 2;
       highlights := value |} in
  match get data (propertyKey id) with
  | Undefined => final
  | Own hs => assign final (propertyKey id) (book (Arr hs))
  | Inherited => assign final (propertyKey id) (book NotAnArray)
  end.

Definition finalData (data : obj (list HighlightData))
  (booksData : list (list string)) : obj SyncedBook :=
  fold_left (joinRow data) booksData [].

(** *** Rendering and writing *)

Definition rule : string := lf +:+ lf +:+ "---" +:+ lf.

(** The second argument of [vault.create]. *)
Definition render (book : SyncedBook) : result string :=
  match highlights book with
  | Arr hs =>
      Ok ("## Metadata" +:+ lf +:+ "- Author: " +:+ interpolate (authorName book)
            +:+ lf +:+ "- [Apple Books Link](ibooks://assetid/"
            +:+ interpolate (bookId book)
            +:+ ")" +:+ lf +:+ lf +:+ "## Highlights" +:+ lf
            +:+ join rule
                  (List.map join_elem
                     (List.map (fun highlight => selectedText highlight) hs)))
  | NotAnArray => Throw TypeError
  end.

(** The first argument of [vault.create]. *)
Definition documentPath (folder : string) (book : SyncedBook) : string :=
  folder +:+ "/" +:+ interpolate (bookTitle book) +:+ ".md".

(** [for (const [, book] of Object.entries(finalData)) await vault.create(..)]. *)
Fixpoint writeBooks (folder : string) (books : list (string * SyncedBook))
  : M unit :=
  match books with
  | [] => ret tt
  | (_, book) :: rest =>
      let* body := lift (render book) in
      vault_create (documentPath folder book) body;;
      writeBooks folder rest
  end.

(** *** [syncHighlights] *)

Definition syncHighlights (e : env) (settings : AppleBooksPluginSettings)
  : M unit :=
  let* annotationDBFolderFiles :=
    fs_readdir e (ANNOTATION_DB_FOLDER_ABSOLUTE_PATH e) in
  match dbFileName annotationDBFolderFiles with
  | None => notice "Apple Books Annotation Database not found, cannot sync."
  | Some annotationDBFileName =>
      let annotationDBAbsoluteFileName :=
        path_join (ANNOTATION_DB_FOLDER_ABSOLUTE_PATH e) annotationDBFileName in
      let* booksDBFolderFiles :=
        fs_readdir e (BOOKS_DB_FOLDER_ABSOLUTE_PATH e) in
      match dbFileName booksDBFolderFiles with
      | None => notice "Apple Books Books Database not found, cannot sync."
      | Some booksDBFileName =>
          let booksDBAbsoluteFileName :=
            path_join (BOOKS_DB_FOLDER_ABSOLUTE_PATH e) booksDBFileName in
          let* annotationDBResult :=
            child_exec e (sqlite3 annotationDBAbsoluteFileName
                            annotationDataSelectQuery) in
          let* data := lift (annotationData (parseRows annotationDBResult)) in
          let* booksDBResult :=
            child_exec e (sqlite3 booksDBAbsoluteFileName
                            (booksDataSelectQuery data)) in
          let final := finalData data (parseRows booksDBResult) in
          let* highlightsFolderAbstractFile :=
            vault_getAbstractFileByPath (highlightsFolder settings) in
          match highlightsFolderAbstractFile with
          | Some _ => vault_delete (highlightsFolder settings)
          | None => ret tt
          end;;
          vault_createFolder (highlightsFolder settings);;
          writeBooks (highlightsFolder settings) (entries final);;
          notice "Successfully finished Apple Books Highlight Sync"
      end
  end.

(** A run from a given store, with an empty log. *)
Definition run (e : env) (settings : AppleBooksPluginSettings) (v : vault)
  : result unit * world :=
  syncHighlights e settings {| store := v; calls := [] |}.

End Sync.

Import Sync.

(** ** The separator scheme, as the specification words it *)

Module Scheme.

(** Fields joined by the field separator, rows joined by the row separator. *)
Definition encode (matrix : list (list string)) : string :=
  join "@@@" (List.map (join "|||") matrix).

(** [sep] occurs somewhere in [s]. *)
Fixpoint contains (sep s : string) : bool :=
  String.prefix sep s ||
  match s with
  | EmptyString => false
  | String _ s' => contains sep s'
  end.

Fixpoint lastChar (s : string) : option ascii :=
  match s with
  | EmptyString => None
  | String c EmptyString => Some c
  | String _ s' => lastChar s'
  end.

(** No suffix of [s], once [sep] is appended, starts with [sep]: the
    leftmost occurrence of [sep] in [s ++ sep] is the appended one. *)
Fixpoint clean (sep s : string) : bool :=
  match s with
  | EmptyString => true
  | String _ s' => negb (String.prefix sep (s +:+ sep)) && clean sep s'
  end.

(** The separator made of three copies of one character. *)
Definition triple (a : ascii) : string :=
  String a (String a (String a EmptyString)).

(** What the claim asks of a field. *)
Definition separatorFree (f : string) : bool :=
  negb (contains "@@@" f) && negb (contains "|||" f).

(** What the parser needs of a field on top of that. *)
Definition closed (f : string) : bool :=
  match lastChar f with
  | Some c => negb (Ascii.eqb c "|") && negb (Ascii.eqb c "@")
  | None => true
  end.

End Scheme.

Import Scheme.

(** ** Vocabulary for the statements *)

Module Terms.

(** What the round trip needs of a field: free of both separators, and not
    ending in a character of either. *)
Definition admissible (f : string) : bool := separatorFree f && closed f.

(** The property name a row is filed under. *)
Definition rowKey (row : list string) : string := propertyKey (field row 0).

(** The highlight a parsed annotation row carries. *)
Definition highlightOf (row : list string) : HighlightData :=
  {| annotationId := field row 1; selectedText := field row 2 |}.

(** The rows bearing a given key, in source order. *)
Definition rowsOf (k : string) (rows : list (list string))
  : list (list string) :=
  List.filter (fun row => String.eqb (rowKey row) k) rows.

(** Membership in a list of names. *)
Definition mem (k : string) (ks : list string) : bool :=
  existsb (String.eqb k) ks.

(** The names of a list, each kept at its first occurrence. *)
Fixpoint distinct (ks : list string) : list string :=
  match ks with
  | [] => []
  | k :: rest => k :: List.filter (fun k' => negb (String.eqb k' k)) (distinct rest)
  end.

(** The name is an array index. *)
Definition isIndex (k : string) : bool :=
  match array_index k with
  | Some _ => true
  | None => false
  end.

(** The book a catalog row describes, given its highlights. *)
Definition bookOf (row : list string) (hs : list HighlightData) : SyncedBook :=
  {| bookId := field row 0;
     authorName := field row 1;
     bookTitle := field row 2;
     highlights := Arr hs |}.

(** The object has an own property of that name. *)
Definition owns {A} (o : obj A) (k : string) : bool :=
  match get_own o k with
  | Some _ => true
  | None => false
  end.

(** The catalog rows whose key is an own property of the grouped map. *)
Definition matching (data : obj (list HighlightData))
  (rows : list (list string)) : list (list string) :=
  List.filter (fun row => owns data (rowKey row)) rows.

(** The book identifiers of the matching catalog rows, in catalog order,
    each at its first row. *)
Definition catalogOrder (data : obj (list HighlightData))
  (rows : list (list string)) : list string :=
  distinct (List.map rowKey (matching data rows)).

(** Numeric order on array indices. *)
Definition indexLe (a b : string) : Prop :=
  match array_index a, array_index b with
  | Some m, Some n => (m <= n)%N
  | _, _ => False
  end.

(** What [fs.readdir] yields once its rejection is caught. *)
Definition listing (e : env) (path : string) : list string :=
  match readdir e path with
  | Some files => files
  | None => []
  end.

(** The environment [e] with every rejected listing replaced by an empty
    one. *)
Definition tolerant (e : env) : env :=
  {| HOME := HOME e;
     readdir := fun path => Some (listing e path);
     exec := exec e |}.

(** The text written for a book ([render] is total on books whose
    highlights are an array). *)
Definition bodyOf (book : SyncedBook) : string :=
  match render book with
  | Ok body => body
  | Throw _ => EmptyString
  end.

(** The two sections of a document. *)
Definition metadataSection (book : SyncedBook) : string :=
  "## Metadata" +:+ lf
    +:+ "- Author: " +:+ interpolate (authorName book) +:+ lf
    +:+ "- [Apple Books Link](ibooks://assetid/" +:+ interpolate (bookId book)
    +:+ ")" +:+ lf.

Fixpoint highlightsSection (hs : list HighlightData) : string :=
  match hs with
  | [] => EmptyString
  | [h] => join_elem (selectedText h)
  | h :: rest => join_elem (selectedText h) +:+ rule +:+ highlightsSection rest
  end.


(** The store after the documents of the books have been added to it. *)
Definition withDocuments (folder : string) (books : list SyncedBook)
  (v : vault) : vault :=
  fold_left (fun m book => <[documentPath folder book := File (bodyOf book)]> m)
    books v.

(** The two notices of an aborted run and the one of a completed run. *)
Definition annotationsNotFound : string :=
  "Apple Books Annotation Database not found, cannot sync.".
Definition booksNotFound : string :=
  "Apple Books Books Database not found, cannot sync.".
Definition finished : string :=
  "Successfully finished Apple Books Highlight Sync".

(** The two queries of a run, for the database files it found. *)
Definition annotationQuery (e : env) (annotationDBFileName : string) : string :=
  sqlite3 (path_join (ANNOTATION_DB_FOLDER_ABSOLUTE_PATH e) annotationDBFileName)
    annotationDataSelectQuery.

Definition booksQuery (e : env) (booksDBFileName : string)
  (data : obj (list HighlightData)) : string :=
  sqlite3 (path_join (BOOKS_DB_FOLDER_ABSOLUTE_PATH e) booksDBFileName)
    (booksDataSelectQuery data).

(** The books a run joins: both databases found, both queries answered,
    grouping completed. *)
Definition syncedBooks (e : env) : option (list SyncedBook) :=
  match dbFileName (listing e (ANNOTATION_DB_FOLDER_ABSOLUTE_PATH e)),
        dbFileName (listing e (BOOKS_DB_FOLDER_ABSOLUTE_PATH e)) with
  | Some annotationDBFileName, Some booksDBFileName =>
      match exec e (annotationQuery e annotationDBFileName) with
      | Some annotationDBResult =>
          match annotationData (parseRows annotationDBResult) with
          | Ok data =>
              match exec e (booksQuery e booksDBFileName data) with
              | Some booksDBResult =>
                  Some (List.map snd
                          (entries (finalData data (parseRows booksDBResult))))
              | None => None
              end
          | Throw _ => None
          end
      | None => None
      end
  | _, _ => None
  end.

(** The calls a run issues before it turns to the vault. *)
Definition queryCalls (e : env) (annotationDBFileName booksDBFileName : string)
  (data : obj (list HighlightData)) : list call :=
  [ Readdir (ANNOTATION_DB_FOLDER_ABSOLUTE_PATH e);
    Readdir (BOOKS_DB_FOLDER_ABSOLUTE_PATH e);
    Exec (annotationQuery e annotationDBFileName);
    Exec (booksQuery e booksDBFileName data) ].

(** The calls that empty the destination folder. *)
Definition replaceCalls (folder : string) (v : vault) : list call :=
  GetAbstractFileByPath folder
    :: match v !! folder with
       | Some _ => [Delete folder]
       | None => []
       end
    ++ [CreateFolder folder].

(** The store once the destination folder has been emptied. *)
Definition emptied (folder : string) (v : vault) : vault :=
  <[folder := Folder]>
    (match v !! folder with
     | Some _ => delete_recursive v folder
     | None => v
     end).

End Terms.

Import Terms.

(** ** Concrete environments and stores *)

Module Fixtures.

Definition annotationsFile : string := "AEAnnotation_v10312011_1727_local.sqlite".
Definition libraryFile : string := "BKLibrary-1-091020131601.sqlite".

(** Both containers hold a database file; the annotation query prints
    [annotations] and the catalog query prints [catalog] ([None]: the query
    is rejected). *)
Definition answering (annotations catalog : option string) : env :=
  {| HOME := Some "/Users/reader";
     readdir := fun path =>
       if endsWith path "AEAnnotation"
       then Some [annotationsFile; annotationsFile +:+ "-wal"]
       else Some [libraryFile];
     exec := fun command =>
       if contains "ZAEANNOTATION" command then annotations else catalog |}.

(** Neither container can be listed. *)
Definition unlistable : env :=
  {| HOME := Some "/Users/reader";
     readdir := fun _ => None;
     exec := fun _ => None |}.

(** A store in which the destination folder holds a note of the user. *)
Definition withNote : vault :=
  <["Apple Books Highlights" := Folder]>
    (<["Apple Books Highlights/My own note.md" := File "keep me"]> ∅).

(** One book with two highlights, as the specification has it. *)
Definition oneBook : env :=
  answering (Some "B1|||A1|||Great quote@@@B1|||A2|||Another line@@@")
            (Some "B1|||Jane Doe|||My Book@@@").

(** Two store-bought books, whose identifiers are numerals; the catalog
    lists the larger identifier first. *)
Definition numericIds : env :=
  answering (Some "909783683|||A1|||x@@@395211307|||A2|||y@@@")
            (Some "909783683|||Ann|||Second@@@395211307|||Bob|||First@@@").

(** Two books with one title. *)
Definition sameTitle : env :=
  answering (Some "B1|||A1|||first@@@B2|||A2|||second@@@")
            (Some "B1|||Ann|||Same Title@@@B2|||Bob|||Same Title@@@").

(** No annotation at all; the engine answers the catalog query with no
    row. *)
Definition noAnnotations : env := answering (Some "") (Some "").

End Fixtures.

Import Fixtures.

(** ** The plugin around the sync function

    [onload], [loadSettings], [saveSettings], the callbacks of the command
    and of the ribbon icon, and the two [onChange] handlers of the settings
    tab.  The host keeps the saved settings ([loadData], [saveData]) and the
    registrations; both are state here.  The names of this module are used
    qualified. *)

Module Plugin.

(** What [loadData] resolves to, when something was saved: each field of
    the settings is present or not. *)
Record savedData : Type := {
  savedHighlightsFolder : option string;
  savedSyncOnStartup : option bool
}.

Inductive registration : Type :=
| SettingTab
| Command (id name : string)
| RibbonIcon (icon title : string).

Record plugin : Type := {
  (** [this.settings] *)
  settings : AppleBooksPluginSettings;
  (** what the host has saved for the plugin; [None]: nothing, [loadData]
      resolves to [null] *)
  data : option savedData;
  (** what the plugin has registered with the host, in order *)
  registered : list registration;
  (** the vault and the log of the calls of [syncHighlights] *)
  host : world
}.

Definition P (A : Type) : Type := plugin -> result A * plugin.

Definition andThen {A B} (m : P A) (k : A -> P B) : P B :=
  fun p =>
    match m p with
    | (Ok a, p') => k a p'
    | (Throw e, p') => (Throw e, p')
    end.

Notation "m '>>' k" := (andThen m (fun _ => k))
  (at level 100, k at level 200, right associativity).

Definition done : P unit := fun p => (Ok tt, p).

(** [Object.assign({}, DEFAULT_SETTINGS, data)]: the fields of [data], when
    there are any, replace those of the defaults; a [null] source is
    skipped. *)
Definition assignDefaults (d : option savedData) : AppleBooksPluginSettings :=
  match d with
  | None => DEFAULT_SETTINGS
  | Some d =>
      {| highlightsFolder :=
           match savedHighlightsFolder d with
           | Some folder => folder
           | None => highlightsFolder DEFAULT_SETTINGS
           end;
         syncOnStartup :=
           match savedSyncOnStartup d with
           | Some flag => flag
           | None => syncOnStartup DEFAULT_SETTINGS
           end |}
  end.

Definition loadSettings : P unit :=
  fun p =>
    (Ok tt,
     {| settings := assignDefaults (data p);
        data := data p;
        registered := registered p;
        host := host p |}).

(** [saveData(this.settings)]: both fields are saved. *)
Definition saveSettings : P unit :=
  fun p =>
    (Ok tt,
     {| settings := settings p;
        data := Some {| savedHighlightsFolder :=
                          Some (highlightsFolder (settings p));
                        savedSyncOnStartup :=
                          Some (syncOnStartup (settings p)) |};
        registered := registered p;
        host := host p |}).

(** [this.syncHighlights()], awaited: it reads [this.settings] when it is
    called, and works on the host. *)
Definition syncHighlights (e : env) : P unit :=
  fun p =>
    match Sync.syncHighlights e (settings p) (host p) with
    | (r, w) =>
        (r, {| settings := settings p;
               data := data p;
               registered := registered p;
               host := w |})
    end.

Definition register (r : registration) : P unit :=
  fun p =>
    (Ok tt,
     {| settings := settings p;
        data := data p;
        registered := registered p ++ [r];
        host := host p |}).

Definition onload (e : env) : P unit :=
  loadSettings >>
  (fun p => if syncOnStartup (settings p) then syncHighlights e p else done p) >>
  register SettingTab >>
  register (Command "obsidian-apple-books-plugin-sync-highlights"
                    "Sync highlights") >>
  register (RibbonIcon "book" "Apple Books Sync Highlights").


(** The [onChange] handler of the folder dropdown. *)
Definition onFolderChange (value : string) : P unit :=
  (fun p =>
     (Ok tt,
      {| settings := {| highlightsFolder := value;
                        syncOnStartup := syncOnStartup (settings p) |};
         data := data p;
         registered := registered p;
         host := host p |})) >>
  saveSettings.

(** The [onChange] handler of the startup toggle. *)
Definition onToggleChange (value : bool) : P unit :=
  (fun p =>
     (Ok tt,
      {| settings := {| highlightsFolder := highlightsFolder (settings p);
                        syncOnStartup := value |};
         data := data p;
         registered := registered p;
         host := host p |})) >>
  saveSettings.

(** The plugin as the host creates it: nothing registered, an empty log. *)
Definition fresh (d : option savedData) (v : vault) : plugin :=
  {| settings := DEFAULT_SETTINGS;
     data := d;
     registered := [];
     host := {| store := v; calls := [] |} |}.

End Plugin.

(** ** Vocabulary for the further statements *)

Module Observations.

(** What the [sqlite3] shell prints with [.separator ||| @@@]: the fields
    of a row with [|||] between them, and [@@@] after every row. *)
Fixpoint printed (matrix : list (list string)) : string :=
  match matrix with
  | [] => EmptyString
  | row :: rest => join "|||" row +:+ "@@@" +:+ printed rest
  end.

Definition isVaultCall (c : call) : bool :=
  match c with
  | GetAbstractFileByPath _ | Delete _ | CreateFolder _ | Create _ _ => true
  | Readdir _ | Exec _ | NewNotice _ => false
  end.

Definition isNotice (c : call) : bool :=
  match c with
  | NewNotice _ => true
  | _ => false
  end.

Definition isCreate (c : call) : bool :=
  match c with
  | Create _ _ => true
  | _ => false
  end.

(** The number of highlights a grouped map holds. *)
Definition highlightCount (data : obj (list HighlightData)) : nat :=
  List.length (List.concat (List.map snd data)).

(** [`'${a}'`] *)
Definition quoted (a : string) : string := "'" +:+ a +:+ "'".

End Observations.

Import Observations.

(** * Strings *)

Lemma append_empty_r (s : string) : s +:+ "" = s.
Proof. induction s as [|c s IH]; simpl; [reflexivity | now rewrite IH]. Qed.

Lemma append_assoc (a b c : string) : (a +:+ b) +:+ c = a +:+ b +:+ c.
Proof. induction a as [|x a IH]; simpl; [reflexivity | now rewrite IH]. Qed.

Lemma append_snoc (cur : string) (c : ascii) (s : string) :
  (cur +:+ String c "") +:+ s = cur +:+ String c s.
Proof. now rewrite append_assoc. Qed.

Lemma length_append (a b : string) :
  String.length (a +:+ b) = String.length a + String.length b.
Proof. induction a as [|x a IH]; simpl; [reflexivity | now rewrite IH]. Qed.

Lemma prefix_empty (s : string) : String.prefix "" s = true.
Proof. destruct s; reflexivity. Qed.

Lemma prefix_refl_append (sep rest : string) :
  String.prefix sep (sep +:+ rest) = true.
Proof.
  induction sep as [|c sep IH]; simpl; [apply prefix_empty|].
  destruct (ascii_dec c c); [exact IH | congruence].
Qed.

(** [prefix sep] only reads the first [length sep] characters. *)
Lemma prefix_append_long (sep x y : string) :
  String.length sep <= String.length x ->
  String.prefix sep (x +:+ y) = String.prefix sep x.
Proof.
  revert x. induction sep as [|c sep IH]; intros x Hlen.
  - now rewrite !prefix_empty.
  - destruct x as [|d x]; simpl in *; [lia|].
    destruct (ascii_dec c d); [apply IH; lia | reflexivity].
Qed.

(** * Splitting what was joined *)

Lemma split_from_skip (sep x rest cur : string) :
  split_from sep (x +:+ rest) (String.length x) cur = split_from sep rest 0 cur.
Proof. induction x as [|c x IH]; simpl; [reflexivity | exact IH]. Qed.

Lemma split_from_sep (sep rest cur : string) :
  truthy sep = true ->
  split_from sep (sep +:+ rest) 0 cur = cur :: split_from sep rest 0 "".
Proof.
  intros Hsep. destruct sep as [|c sep']; [discriminate|].
  pose proof (prefix_refl_append (String c sep') rest) as Hp.
  simpl String.append in *. cbn [split_from]. rewrite Hp.
  f_equal. cbn [String.length]. rewrite Nat.sub_succ, Nat.sub_0_r.
  apply split_from_skip.
Qed.

(** A clean chunk followed by the separator is cut off as it is. *)
Lemma split_from_clean (sep f rest cur : string) :
  truthy sep = true ->
  clean sep f = true ->
  split_from sep (f +:+ sep +:+ rest) 0 cur
  = (cur +:+ f) :: split_from sep rest 0 "".
Proof.
  intros Hsep. revert cur. induction f as [|c f IH]; intros cur Hclean.
  - simpl. rewrite append_empty_r. now apply split_from_sep.
  - cbn [clean] in Hclean. apply andb_true_iff in Hclean as [Hhead Htail].
    apply negb_true_iff in Hhead.
    assert (Hp : String.prefix sep (String c f +:+ sep +:+ rest) = false).
    { rewrite <- append_assoc, prefix_append_long; [exact Hhead|].
      rewrite length_append. simpl. lia. }
    simpl String.append in *. cbn [split_from]. rewrite Hp.
    rewrite IH by exact Htail. now rewrite append_snoc.
Qed.

Lemma prefix_append_mono (sep g y : string) :
  String.prefix sep g = true -> String.prefix sep (g +:+ y) = true.
Proof.
  revert g. induction sep as [|c sep IH]; intros g H.
  - apply prefix_empty.
  - destruct g as [|d g]; simpl in *; [discriminate|].
    destruct (ascii_dec c d); [now apply IH | discriminate].
Qed.

(** A clean chunk at the end of the text is the last piece. *)
Lemma split_from_clean_end (sep f cur : string) :
  clean sep f = true -> split_from sep f 0 cur = [cur +:+ f].
Proof.
  revert cur. induction f as [|c f IH]; intros cur Hclean.
  - simpl. now rewrite append_empty_r.
  - cbn [clean] in Hclean. apply andb_true_iff in Hclean as [Hhead Htail].
    apply negb_true_iff in Hhead.
    assert (Hp : String.prefix sep (String c f) = false).
    { destruct (String.prefix sep (String c f)) eqn:E; [|reflexivity].
      apply prefix_append_mono with (y := sep) in E. congruence. }
    cbn [split_from]. rewrite Hp, IH by exact Htail. now rewrite append_snoc.
Qed.

(** [join] then [split] on chunks that are all clean. *)
Lemma split_join (sep : string) (fs : list string) :
  truthy sep = true ->
  fs <> [] ->
  forallb (clean sep) fs = true ->
  split (join sep fs) sep = fs.
Proof.
  intros Hsep Hne Hall.
  assert (Hgo : split_from sep (join sep fs) 0 "" = fs).
  { destruct fs as [|f fs]; [congruence|]. clear Hne.
    revert f Hall. induction fs as [|g fs IH]; intros f Hall.
    - simpl in Hall. rewrite andb_true_r in Hall.
      simpl. now rewrite split_from_clean_end.
    - cbn [forallb] in Hall. apply andb_true_iff in Hall as [Hf Hrest].
      change (join sep (f :: g :: fs)) with (f +:+ sep +:+ join sep (g :: fs)).
      rewrite split_from_clean by assumption.
      simpl String.append. f_equal. now apply IH. }
  unfold split. destruct sep; [discriminate | exact Hgo].
Qed.

(** * The two separators of the source *)

Lemma contains_tail (sep : string) (c : ascii) (s : string) :
  contains sep (String c s) = false -> contains sep s = false.
Proof.
  cbn [contains]. intros H. apply orb_false_iff in H as [_ H]. exact H.
Qed.

Lemma contains_prefix (sep s : string) :
  contains sep s = false -> String.prefix sep s = false.
Proof.
  destruct s; cbn [contains]; intros H; now apply orb_false_iff in H as [H _].
Qed.

Lemma lastChar_tail (c d : ascii) (s : string) :
  lastChar (String c (String d s)) = lastChar (String d s).
Proof. reflexivity. Qed.

(** A string without the triple, and not ending in its character, is clean. *)
Lemma clean_triple (a : ascii) (s : string) :
  contains (triple a) s = false ->
  lastChar s <> Some a ->
  clean (triple a) s = true.
Proof.
  induction s as [|c s IH]; intros Hfree Hlast; [reflexivity|].
  cbn [clean]. apply andb_true_iff. split.
  - apply negb_true_iff.
    apply contains_prefix in Hfree. clear IH.
    unfold triple in *.
    destruct s as [|c2 [|c3 s]]; simpl in *;
      repeat match goal with
             | |- context [ascii_dec ?x ?y] => destruct (ascii_dec x y); subst
             | H : context [ascii_dec ?x ?y] |- _ => destruct (ascii_dec x y); subst
             end; try reflexivity; try congruence.
    rewrite prefix_empty in Hfree. discriminate.
  - apply IH; [now apply contains_tail in Hfree|].
    destruct s as [|d s]; [discriminate | now rewrite lastChar_tail in Hlast].
Qed.

(** Joining with another triple does not create the triple. *)
Lemma contains_triple_join (a b : ascii) (x y : string) :
  a <> b ->
  contains (triple a) x = false ->
  contains (triple a) y = false ->
  contains (triple a) (x +:+ triple b +:+ y) = false.
Proof.
  intros Hab Hx Hy. induction x as [|c x IH].
  - unfold triple in *. simpl String.append. cbn [contains].
    cbn [String.prefix].
    destruct (ascii_dec a b); [congruence|]. simpl. exact Hy.
  - pose proof (contains_prefix _ _ Hx) as Hp.
    apply contains_tail in Hx. specialize (IH Hx).
    change (String c x +:+ triple b +:+ y) with (String c (x +:+ triple b +:+ y)).
    cbn [contains]. rewrite IH, orb_false_r.
    unfold triple in *.
    destruct x as [|c2 [|c3 x]]; simpl in *;
      repeat match goal with
             | |- context [ascii_dec ?x ?y] => destruct (ascii_dec x y); subst
             | H : context [ascii_dec ?x ?y] |- _ => destruct (ascii_dec x y); subst
             end; try reflexivity; try congruence.
    rewrite prefix_empty in Hp. discriminate.
Qed.

Lemma lastChar_append (x y : string) :
  truthy y = true -> lastChar (x +:+ y) = lastChar y.
Proof.
  intros Hy. induction x as [|c x IH]; [reflexivity|].
  simpl String.append. destruct (x +:+ y) eqn:E.
  - destruct x, y; discriminate.
  - rewrite lastChar_tail. exact IH.
Qed.

Lemma admissible_clean_field (f : string) :
  admissible f = true -> clean "|||" f = true.
Proof.
  unfold admissible, separatorFree, closed. intros H.
  apply andb_true_iff in H as [Hfree Hclosed].
  apply andb_true_iff in Hfree as [_ Hbar]. apply negb_true_iff in Hbar.
  apply (clean_triple "|"); [exact Hbar|].
  intros E. rewrite E in Hclosed. discriminate.
Qed.

Lemma row_no_row_separator (row : list string) :
  forallb admissible row = true ->
  contains "@@@" (join "|||" row) = false.
Proof.
  destruct row as [|f row]; [reflexivity|]. revert f.
  induction row as [|g row IH]; intros f Hall;
    cbn [forallb] in Hall; apply andb_true_iff in Hall as [Hf Hrest].
  - unfold admissible, separatorFree in Hf.
    apply andb_true_iff in Hf as [Hf _]. apply andb_true_iff in Hf as [Hf _].
    now apply negb_true_iff in Hf.
  - change (join "|||" (f :: g :: row))
      with (f +:+ triple "|" +:+ join "|||" (g :: row)).
    apply (contains_triple_join "@" "|"); [discriminate | | now apply IH].
    unfold admissible, separatorFree in Hf.
    apply andb_true_iff in Hf as [Hf _]. apply andb_true_iff in Hf as [Hf _].
    now apply negb_true_iff in Hf.
Qed.

Lemma row_not_ending_at (row : list string) :
  forallb admissible row = true ->
  lastChar (join "|||" row) <> Some "@"%char.
Proof.
  destruct row as [|f row]; [discriminate|]. revert f.
  induction row as [|g row IH]; intros f Hall;
    cbn [forallb] in Hall; apply andb_true_iff in Hall as [Hf Hrest].
  - unfold admissible, closed in Hf. apply andb_true_iff in Hf as [_ Hf].
    intros E. simpl in E. rewrite E in Hf. discriminate.
  - change (join "|||" (f :: g :: row))
      with (f +:+ "|||" +:+ join "|||" (g :: row)).
    rewrite lastChar_append by reflexivity.
    specialize (IH g Hrest).
    destruct (join "|||" (g :: row)) eqn:E; [discriminate | exact IH].
Qed.

Lemma admissible_clean_row (row : list string) :
  forallb admissible row = true -> clean "@@@" (join "|||" row) = true.
Proof.
  intros H. apply (clean_triple "@");
    [now apply row_no_row_separator | now apply row_not_ending_at].
Qed.

Lemma forallb_map {A B} (p : B -> bool) (g : A -> B) (l : list A) :
  forallb p (List.map g l) = forallb (fun x => p (g x)) l.
Proof. induction l as [|x l IH]; [reflexivity|]. simpl. now rewrite IH. Qed.

Lemma filter_truthy_all (rows : list string) :
  forallb truthy rows = true -> List.filter truthy rows = rows.
Proof.
  induction rows as [|r rows IH]; [reflexivity|].
  cbn [forallb List.filter]. intros H. apply andb_true_iff in H as [Hr Hrest].
  rewrite Hr. f_equal. now apply IH.
Qed.

(** C5, as amended.  For a matrix whose fields contain neither separator
    and do not end in [|] or [@], and whose rows are not empty once joined,
    joining the fields of each row with [|||] and the rows with [@@@], then
    parsing as the source does, gives the matrix back. *)
Theorem separator_round_trip (matrix : list (list string)) :
  forallb (forallb admissible) matrix = true ->
  forallb (fun row => truthy (join "|||" row)) matrix = true ->
  parseRows (encode matrix) = matrix.
Proof.
  intros Hfields Hrows. unfold parseRows, rawRows, encode.
  destruct matrix as [|row matrix]; [reflexivity|].
  rewrite split_join; [ | reflexivity | discriminate | ].
  - rewrite filter_truthy_all by now rewrite forallb_map.
    rewrite List.map_map.
    remember (row :: matrix) as m eqn:Em. clear Em.
    induction m as [|r m IH]; [reflexivity|].
    cbn [forallb] in Hfields, Hrows.
    apply andb_true_iff in Hfields as [Hr Hm].
    apply andb_true_iff in Hrows as [Hr' Hm'].
    cbn [List.map]. f_equal; [|now apply IH].
    apply split_join; [reflexivity | | ].
    + intros ->. discriminate.
    + rewrite forallb_forall in Hr |- *. intros f Hf.
      now apply admissible_clean_field, Hr.
  - rewrite forallb_map. rewrite forallb_forall in Hfields |- *.
    intros r Hr. now apply admissible_clean_row, Hfields.
Qed.

(** * Own properties *)

Section OwnProperties.

Context {A : Type}.
Implicit Types (o : obj A) (k : string) (a : A).

Lemma mem_In k (ks : list string) : mem k ks = true <-> In k ks.
Proof.
  unfold mem. rewrite existsb_exists. split.
  - intros [x [Hx E]]. apply String.eqb_eq in E. now subst.
  - intros H. exists k. split; [exact H | apply String.eqb_refl].
Qed.

Lemma mem_false_In k (ks : list string) : mem k ks = false <-> ~ In k ks.
Proof.
  rewrite <- mem_In. destruct (mem k ks); split; congruence.
Qed.

Lemma get_own_None o k : get_own o k = None <-> ~ In k (List.map fst o).
Proof.
  induction o as [|[k' a'] o IH]; simpl; [tauto|].
  destruct (String.eqb_spec k' k) as [->|Hne].
  - split; [discriminate | tauto].
  - rewrite IH. tauto.
Qed.

Lemma get_own_Some_In o k a : get_own o k = Some a -> In (k, a) o.
Proof.
  induction o as [|[k' a'] o IH]; simpl; [discriminate|].
  destruct (String.eqb_spec k' k) as [->|Hne].
  - intros [= ->]. now left.
  - intros H. right. now apply IH.
Qed.

Lemma In_get_own o k a :
  List.NoDup (List.map fst o) -> In (k, a) o -> get_own o k = Some a.
Proof.
  induction o as [|[k' a'] o IH]; simpl; [tauto|].
  intros Hnd [[= -> ->]|Hin].
  - now rewrite String.eqb_refl.
  - inversion_clear Hnd as [|? ? Hk' Hnd'].
    destruct (String.eqb_spec k' k) as [->|Hne]; [|now apply IH].
    exfalso. apply Hk'. change k with (fst (k, a)). now apply List.in_map.
Qed.

Lemma get_own_set_own o k k' a :
  get_own (set_own o k a) k' = if String.eqb k k' then Some a else get_own o k'.
Proof.
  induction o as [|[k0 a0] o IH]; simpl.
  - reflexivity.
  - destruct (String.eqb_spec k0 k) as [->|Hne]; simpl.
    + destruct (String.eqb_spec k k'); reflexivity.
    + destruct (String.eqb_spec k0 k') as [->|Hne'].
      * destruct (String.eqb_spec k k'); [congruence | reflexivity].
      * exact IH.
Qed.

(** A new name goes last; a known one keeps its place. *)
Lemma keys_set_own o k a :
  List.map fst (set_own o k a)
  = if mem k (List.map fst o) then List.map fst o else List.map fst o ++ [k].
Proof.
  induction o as [|[k0 a0] o IH]; simpl; [reflexivity|].
  rewrite (String.eqb_sym k k0).
  destruct (String.eqb_spec k0 k) as [->|Hne]; simpl; [reflexivity|].
  rewrite IH. fold (mem k (List.map fst o)).
  now destruct (mem k (List.map fst o)).
Qed.

Lemma NoDup_set_own o k a :
  List.NoDup (List.map fst o) -> List.NoDup (List.map fst (set_own o k a)).
Proof.
  intros Hnd. rewrite keys_set_own.
  destruct (mem k (List.map fst o)) eqn:E; [exact Hnd|].
  apply mem_false_In in E.
  apply NoDup_ListNoDup. apply NoDup_ListNoDup in Hnd.
  apply NoDup_app. repeat split; [exact Hnd | | apply NoDup_singleton].
  intros x Hx Hx'. apply list_elem_of_In in Hx, Hx'.
  destruct Hx' as [<-|[]]. contradiction.
Qed.

Lemma NoDup_assign o k a :
  List.NoDup (List.map fst o) -> List.NoDup (List.map fst (assign o k a)).
Proof.
  unfold assign. destruct (String.eqb k "__proto__"); [tauto|].
  apply NoDup_set_own.
Qed.

Lemma assign_not_inherited o k a :
  inherited k = false -> assign o k a = set_own o k a.
Proof.
  unfold assign. destruct (String.eqb_spec k "__proto__") as [->|]; [|reflexivity].
  discriminate.
Qed.

Lemma get_not_inherited o k :
  inherited k = false ->
  get o k = match get_own o k with Some a => Own a | None => Undefined end.
Proof. unfold get. now intros ->. Qed.

End OwnProperties.

(** * Enumeration order *)

Section Enumeration.

Context {A : Type}.
Implicit Types (o : obj A) (k : string) (a : A).

Lemma insert_index_perm (n : N) (p : string * A) l :
  Permutation (insert_index n p l) ((n, p) :: l).
Proof.
  induction l as [|[m q] l IH]; simpl; [reflexivity|].
  destruct (n <=? m)%N; [reflexivity|].
  rewrite IH. apply perm_swap.
Qed.

Lemma insert_index_sorted (n : N) (p : string * A) l :
  StronglySorted (fun x y => (x.1 <= y.1)%N) l ->
  StronglySorted (fun x y => (x.1 <= y.1)%N) (insert_index n p l).
Proof.
  induction l as [|[m q] l IH]; intros Hs; simpl.
  - constructor; [constructor | constructor].
  - destruct (N.leb_spec n m) as [Hle|Hlt].
    + constructor; [exact Hs|].
      constructor; [exact Hle|].
      inversion_clear Hs as [|? ? _ Hall].
      eapply List.Forall_impl; [|exact Hall]. simpl. intros; lia.
    + inversion_clear Hs as [|? ? Hs' Hall].
      constructor; [now apply IH|].
      apply List.Forall_forall. intros x Hx.
      apply (Permutation_in _ (insert_index_perm n p l)) in Hx.
      destruct Hx as [<-|Hx]; simpl; [lia|].
      rewrite List.Forall_forall in Hall. now apply Hall.
Qed.

(** The array indices come out in ascending numeric order. *)
Lemma index_props_sorted o :
  StronglySorted (fun x y => (x.1 <= y.1)%N) (index_props o).
Proof.
  induction o as [|[k a] o IH]; simpl; [constructor|].
  destruct (array_index k); [now apply insert_index_sorted | exact IH].
Qed.

Lemma index_props_number o n p :
  In (n, p) (index_props o) -> array_index p.1 = Some n.
Proof.
  induction o as [|[k a] o IH]; simpl; [tauto|].
  destruct (array_index k) as [m|] eqn:E; [|exact IH].
  intros H. apply (Permutation_in _ (insert_index_perm m (k, a) _)) in H.
  destruct H as [[= <- <-]|H]; [exact E | now apply IH].
Qed.

Lemma index_props_perm o :
  Permutation (List.map snd (index_props o))
              (List.filter (fun p => isIndex p.1) o).
Proof.
  induction o as [|[k a] o IH]; simpl; [reflexivity|]. unfold isIndex at 1. simpl.
  destruct (array_index k) as [m|]; [|exact IH].
  rewrite (Permutation_map snd (insert_index_perm m (k, a) (index_props o))).
  simpl. now rewrite IH.
Qed.

(** The other names come out in creation order. *)
Lemma named_props_filter o :
  named_props o = List.filter (fun p => negb (isIndex p.1)) o.
Proof.
  induction o as [|[k a] o IH]; simpl; [reflexivity|]. unfold isIndex at 1. simpl.
  destruct (array_index k); simpl; now rewrite IH.
Qed.

Lemma entries_perm o : Permutation (entries o) o.
Proof.
  unfold entries. rewrite index_props_perm, named_props_filter.
  induction o as [|p o IH]; simpl; [reflexivity|].
  destruct (isIndex p.1); simpl.
  - now rewrite IH.
  - rewrite <- Permutation_middle. now rewrite IH.
Qed.

Lemma entries_In o p : In p (entries o) <-> In p o.
Proof.
  split; apply Permutation_in; [apply entries_perm | symmetry; apply entries_perm].
Qed.

Lemma entries_length o : List.length (entries o) = List.length o.
Proof. apply Permutation_length, entries_perm. Qed.

Lemma keys_perm o : Permutation (keys o) (List.map fst o).
Proof. unfold keys. apply Permutation_map, entries_perm. Qed.

Lemma keys_In o k : In k (keys o) <-> In k (List.map fst o).
Proof.
  split; apply Permutation_in; [apply keys_perm | symmetry; apply keys_perm].
Qed.

Lemma keys_NoDup o : List.NoDup (List.map fst o) -> List.NoDup (keys o).
Proof.
  intros H. eapply Permutation_NoDup; [symmetry; apply keys_perm | exact H].
Qed.

(** Without array indices among the names, enumeration is creation order. *)
Lemma entries_named o :
  forallb (fun p => negb (isIndex p.1)) o = true -> entries o = o.
Proof.
  intros H.
  assert (E : index_props o = [] /\ named_props o = o).
  { induction o as [|[k a] o IH]; [split; reflexivity|].
    cbn [forallb] in H. apply andb_true_iff in H as [Hk Ho].
    destruct (IH Ho) as [E1 E2]. unfold isIndex in Hk. simpl in *.
    destruct (array_index k); [discriminate|]. now rewrite E2. }
  unfold entries. destruct E as [-> ->]. reflexivity.
Qed.

End Enumeration.

(** * Grouping the annotation rows *)

Lemma set_own_twice {A} (o : obj A) (k : string) (a b : A) :
  set_own (set_own o k a) k b = set_own o k b.
Proof.
  induction o as [|[k0 a0] o IH]; simpl.
  - now rewrite String.eqb_refl.
  - destruct (String.eqb_spec k0 k) as [->|Hne]; simpl.
    + now rewrite String.eqb_refl.
    + destruct (String.eqb_spec k0 k); [congruence | now rewrite IH].
Qed.

(** One turn of the reduction on a row whose key is not inherited. *)
Lemma group_own (acc : obj (list HighlightData)) (row : list string) :
  inherited (rowKey row) = false ->
  group acc row
  = Ok (set_own acc (rowKey row)
          (default [] (get_own acc (rowKey row)) ++ [highlightOf row])).
Proof.
  intros Hk. unfold group. fold (rowKey row). fold (highlightOf row).
  rewrite (get_not_inherited acc _ Hk).
  destruct (get_own acc (rowKey row)) as [hs|] eqn:E; simpl.
  - rewrite (get_not_inherited acc _ Hk), E. reflexivity.
  - rewrite (assign_not_inherited _ _ _ Hk).
    rewrite (get_not_inherited _ _ Hk), get_own_set_own, String.eqb_refl.
    now rewrite set_own_twice.
Qed.

(** One turn on a row whose key is inherited and not shadowed: the inherited
    member is truthy, so no array is created, and it has no [push]. *)
Lemma group_inherited (acc : obj (list HighlightData)) (row : list string) :
  inherited (rowKey row) = true ->
  get_own acc (rowKey row) = None ->
  group acc row = Throw TypeError.
Proof.
  intros Hk Hown. unfold group. fold (rowKey row).
  unfold get. rewrite Hown, Hk. simpl. now rewrite Hown.
Qed.

Lemma filter_filter_implied {A} (p q : A -> bool) (l : list A) :
  (forall x, p x = true -> q x = true) ->
  List.filter p (List.filter q l) = List.filter p l.
Proof.
  intros Himp. induction l as [|x l IH]; simpl; [reflexivity|].
  destruct (q x) eqn:Eq; simpl.
  - destruct (p x); now rewrite IH.
  - destruct (p x) eqn:Ep; [|exact IH].
    apply Himp in Ep. congruence.
Qed.

Lemma filter_filter_and {A} (p q : A -> bool) (l : list A) :
  List.filter p (List.filter q l) = List.filter (fun x => p x && q x) l.
Proof.
  induction l as [|x l IH]; simpl; [reflexivity|].
  destruct (q x) eqn:Eq; destruct (p x) eqn:Ep; simpl; rewrite ?Ep, ?IH; reflexivity.
Qed.

Lemma mem_app k (xs ys : list string) : mem k (xs ++ ys) = mem k xs || mem k ys.
Proof. unfold mem. apply existsb_app. Qed.

Lemma mem_singleton k k' : mem k [k'] = String.eqb k k'.
Proof. unfold mem. simpl. apply orb_false_r. Qed.

Lemma rowsOf_absent (k : string) (rows : list (list string)) :
  mem k (List.map rowKey rows) = false -> rowsOf k rows = [].
Proof.
  induction rows as [|row rows IH]; [reflexivity|].
  unfold mem. cbn [List.map existsb]. intros H.
  apply orb_false_iff in H as [Hk Hrest].
  unfold rowsOf. cbn [List.filter]. rewrite String.eqb_sym, Hk.
  now apply IH.
Qed.

(** The reduction from any accumulator, on rows without inherited keys. *)
Lemma reduce_group (rows : list (list string)) :
  forallb (fun row => negb (inherited (rowKey row))) rows = true ->
  forall acc : obj (list HighlightData),
  exists data,
    reduce group rows acc = Ok data
    /\ (forall k,
          get_own data k
          = if mem k (List.map rowKey rows)
            then Some (default [] (get_own acc k)
                         ++ List.map highlightOf (rowsOf k rows))
            else get_own acc k)
    /\ List.map fst data
       = List.map fst acc
           ++ List.filter (fun k => negb (mem k (List.map fst acc)))
                (distinct (List.map rowKey rows)).
Proof.
  induction rows as [|row rows IH]; intros Hrows acc.
  - exists acc. simpl. rewrite app_nil_r. auto.
  - cbn [forallb] in Hrows. apply andb_true_iff in Hrows as [Hrow Hrows].
    apply negb_true_iff in Hrow.
    cbn [reduce]. rewrite (group_own acc row Hrow).
    set (acc' := set_own acc (rowKey row) _).
    destruct (IH Hrows acc') as (data & Hred & Hget & Hkeys).
    exists data. split; [exact Hred|]. split.
    + intros k. rewrite Hget. unfold acc'. rewrite get_own_set_own.
      cbn [List.map]. unfold mem at 2. cbn [existsb]. fold (mem k (List.map rowKey rows)).
      unfold rowsOf at 2. cbn [List.filter]. fold (rowsOf k rows).
      rewrite (String.eqb_sym k (rowKey row)).
      destruct (String.eqb_spec (rowKey row) k) as [E|Hne]; simpl.
      * subst k. destruct (mem (rowKey row) (List.map rowKey rows)) eqn:Em; simpl.
        -- f_equal. rewrite <- app_assoc. reflexivity.
        -- rewrite (rowsOf_absent _ _ Em). reflexivity.
      * reflexivity.
    + rewrite Hkeys. unfold acc'. rewrite keys_set_own.
      cbn [List.map distinct List.filter].
      destruct (mem (rowKey row) (List.map fst acc)) eqn:Ein; simpl.
      * f_equal. symmetry. apply filter_filter_implied.
        intros k Hk. apply negb_true_iff in Hk. apply negb_true_iff.
        destruct (String.eqb_spec k (rowKey row)) as [->|]; congruence.
      * rewrite <- app_assoc. simpl. do 2 f_equal.
        rewrite filter_filter_and. apply List.filter_ext. intros k.
        rewrite mem_app, mem_singleton, negb_orb. reflexivity.
Qed.

(** Keys created by the reduction are never inherited names. *)
Lemma reduce_group_throws (rows : list (list string)) :
  existsb (fun row => inherited (rowKey row)) rows = true ->
  forall acc : obj (list HighlightData),
    forallb (fun k => negb (inherited k)) (List.map fst acc) = true ->
    reduce group rows acc = Throw TypeError.
Proof.
  induction rows as [|row rows IH]; intros Hrows acc Hacc; [discriminate|].
  cbn [existsb] in Hrows. cbn [reduce].
  destruct (inherited (rowKey row)) eqn:Hk.
  - rewrite group_inherited; [reflexivity | exact Hk |].
    apply get_own_None. intros Hin.
    rewrite forallb_forall in Hacc. apply Hacc in Hin.
    rewrite Hk in Hin. discriminate.
  - rewrite (group_own acc row Hk). apply IH; [exact Hrows|].
    rewrite keys_set_own. destruct (mem _ _); [exact Hacc|].
    rewrite forallb_app, Hacc. simpl. now rewrite Hk.
Qed.

(** * Joining with the catalog rows *)

Lemma get_own_assign {A} (o : obj A) (k' k : string) (a : A) :
  inherited k = false ->
  get_own (assign o k' a) k = if String.eqb k' k then Some a else get_own o k.
Proof.
  intros Hk. unfold assign.
  destruct (String.eqb_spec k' "__proto__") as [->|Hne].
  - destruct (String.eqb_spec "__proto__" k) as [<-|]; [discriminate | reflexivity].
  - apply get_own_set_own.
Qed.

Lemma joinRow_own (data : obj (list HighlightData)) (final : obj SyncedBook)
  (row : list string) :
  inherited (rowKey row) = false ->
  joinRow data final row
  = match get_own data (rowKey row) with
    | Some hs => set_own final (rowKey row) (bookOf row hs)
    | None => final
    end.
Proof.
  intros Hk. unfold joinRow. fold (rowKey row).
  rewrite (get_not_inherited data _ Hk).
  destruct (get_own data (rowKey row)); [|reflexivity].
  now rewrite (assign_not_inherited _ _ _ Hk).
Qed.

(** A turn of the loop leaves the properties of other names alone, and
    files the row's book under the row's name when the grouped map owns it. *)
Lemma get_own_joinRow (data : obj (list HighlightData)) (final : obj SyncedBook)
  (row : list string) (k : string) :
  inherited k = false ->
  get_own (joinRow data final row) k
  = if String.eqb (rowKey row) k && owns data k
    then option_map (bookOf row) (get_own data k)
    else get_own final k.
Proof.
  intros Hk. unfold joinRow, owns. fold (rowKey row).
  destruct (String.eqb_spec (rowKey row) k) as [->|Hne]; simpl.
  - rewrite (get_not_inherited data _ Hk).
    destruct (get_own data k); [|reflexivity].
    rewrite (get_own_assign _ _ _ _ Hk), String.eqb_refl. reflexivity.
  - unfold get. destruct (get_own data (rowKey row)).
    + rewrite (get_own_assign _ _ _ _ Hk).
      destruct (String.eqb_spec (rowKey row) k); [congruence | reflexivity].
    + destruct (inherited (rowKey row)); [|reflexivity].
      rewrite (get_own_assign _ _ _ _ Hk).
      destruct (String.eqb_spec (rowKey row) k); [congruence | reflexivity].
Qed.

Lemma NoDup_joinRow (data : obj (list HighlightData)) (final : obj SyncedBook)
  (row : list string) :
  List.NoDup (List.map fst final) ->
  List.NoDup (List.map fst (joinRow data final row)).
Proof.
  intros H. unfold joinRow.
  destruct (get data _); [now apply NoDup_assign.. | exact H].
Qed.

Lemma NoDup_fold_joinRow (data : obj (list HighlightData))
  (rows : list (list string)) (final : obj SyncedBook) :
  List.NoDup (List.map fst final) ->
  List.NoDup (List.map fst (fold_left (joinRow data) rows final)).
Proof.
  revert final. induction rows as [|row rows IH]; intros final H; [exact H|].
  simpl. now apply IH, NoDup_joinRow.
Qed.

Lemma rowsOf_matching_cons (data : obj (list HighlightData))
  (row : list string) (rows : list (list string)) (k : string) :
  rowsOf k (matching data (row :: rows))
  = (if String.eqb (rowKey row) k && owns data k then [row] else [])
      ++ rowsOf k (matching data rows).
Proof.
  unfold matching, rowsOf. cbn [List.filter].
  destruct (String.eqb_spec (rowKey row) k) as [E|Hne].
  - rewrite E. destruct (owns data k); cbn [List.filter andb].
    + now rewrite E, String.eqb_refl.
    + reflexivity.
  - destruct (owns data (rowKey row)); cbn [List.filter andb]; [|reflexivity].
    destruct (String.eqb_spec (rowKey row) k); [congruence | reflexivity].
Qed.

(** The book stored under a name is the one of the last catalog row bearing
    that name. *)
Lemma get_own_fold_joinRow (data : obj (list HighlightData))
  (rows : list (list string)) (k : string) :
  inherited k = false ->
  forall final : obj SyncedBook,
    get_own (fold_left (joinRow data) rows final) k
    = match last (rowsOf k (matching data rows)) with
      | Some row => option_map (bookOf row) (get_own data k)
      | None => get_own final k
      end.
Proof.
  intros Hk. induction rows as [|row rows IH]; intros final; [reflexivity|].
  cbn [fold_left]. rewrite IH, (get_own_joinRow _ _ _ _ Hk).
  rewrite rowsOf_matching_cons.
  destruct (String.eqb (rowKey row) k && owns data k); [|reflexivity].
  cbn [app]. rewrite last_cons.
  now destruct (last (rowsOf k (matching data rows))).
Qed.

(** Creation order of the joined map: catalog order, first rows. *)
Lemma keys_fold_joinRow (data : obj (list HighlightData))
  (rows : list (list string)) :
  forallb (fun row => negb (inherited (rowKey row))) rows = true ->
  forall final : obj SyncedBook,
    List.map fst (fold_left (joinRow data) rows final)
    = List.map fst final
        ++ List.filter (fun k => negb (mem k (List.map fst final)))
             (catalogOrder data rows).
Proof.
  unfold catalogOrder.
  induction rows as [|row rows IH]; intros Hrows final.
  - simpl. now rewrite app_nil_r.
  - cbn [forallb] in Hrows. apply andb_true_iff in Hrows as [Hrow Hrows].
    apply negb_true_iff in Hrow.
    cbn [fold_left]. rewrite (IH Hrows), (joinRow_own _ _ _ Hrow).
    unfold matching, owns. cbn [List.filter].
    destruct (get_own data (rowKey row)) as [hs|]; [|reflexivity].
    rewrite keys_set_own. cbn [List.map distinct List.filter].
    fold (matching data rows).
    destruct (mem (rowKey row) (List.map fst final)) eqn:Ein; simpl.
    + f_equal. symmetry. apply filter_filter_implied.
      intros k Hk. apply negb_true_iff in Hk. apply negb_true_iff.
      destruct (String.eqb_spec k (rowKey row)) as [->|]; congruence.
    + rewrite <- app_assoc. simpl. do 2 f_equal.
      rewrite filter_filter_and. apply List.filter_ext. intros k.
      rewrite mem_app, mem_singleton, negb_orb. reflexivity.
Qed.

(** * The store *)

Lemma lookup_delete_recursive (v : vault) (p q : string) :
  delete_recursive v p !! q
  = if decide (q = p) then None else if below p q then None else v !! q.
Proof.
  unfold delete_recursive. rewrite map_lookup_filter.
  destruct (v !! q) as [x|] eqn:E; simpl.
  - destruct (decide (q = p)) as [->|Hne].
    + rewrite option_guard_False; [reflexivity | tauto].
    + destruct (below p q) eqn:Eb.
      * rewrite option_guard_False; [reflexivity | intros [_ ?]; congruence].
      * rewrite option_guard_True; [reflexivity | tauto].
  - now destruct (decide (q = p)), (below p q).
Qed.

Lemma below_documentPath (folder : string) (book : SyncedBook) :
  below folder (documentPath folder book) = true.
Proof.
  unfold below, documentPath. rewrite <- append_assoc. apply prefix_refl_append.
Qed.

Lemma documentPath_not_folder (folder : string) (book : SyncedBook) :
  documentPath folder book <> folder.
Proof.
  unfold documentPath. intros E.
  apply (f_equal String.length) in E. rewrite !length_append in E.
  simpl in E. lia.
Qed.

Lemma lookup_emptied (folder : string) (v : vault) (q : string) :
  rooted v folder ->
  emptied folder v !! q
  = if decide (q = folder) then Some Folder
    else if below folder q then None else v !! q.
Proof.
  intros Hr. unfold emptied. rewrite lookup_insert.
  destruct (decide (folder = q)) as [->|Hne].
  - now rewrite decide_True.
  - rewrite decide_False by congruence.
    destruct (v !! folder) eqn:E.
    + rewrite lookup_delete_recursive, decide_False by congruence. reflexivity.
    + destruct (below folder q) eqn:Eb; [now apply Hr | reflexivity].
Qed.

Lemma lookup_withDocuments_other (folder : string) (books : list SyncedBook)
  (v : vault) (q : string) :
  ~ In q (List.map (documentPath folder) books) ->
  withDocuments folder books v !! q = v !! q.
Proof.
  unfold withDocuments. revert v.
  induction books as [|b books IH]; intros v Hq; [reflexivity|].
  simpl in *. rewrite IH by tauto. apply lookup_insert_ne. tauto.
Qed.


(** * The write loop *)

Lemma render_bodyOf (book : SyncedBook) (body : string) :
  render book = Ok body -> body = bodyOf book.
Proof. unfold bodyOf. now intros ->. Qed.

Lemma render_Arr (book : SyncedBook) (hs : list HighlightData) :
  highlights book = Arr hs -> render book = Ok (bodyOf book).
Proof. unfold bodyOf, render. now intros ->. Qed.

Section WriteLoop.

Variable folder : string.

(** One turn of the loop. *)
Lemma writeBooks_step (k : string) (book : SyncedBook)
  (rest : list (string * SyncedBook)) (w : world) :
  writeBooks folder ((k, book) :: rest) w
  = match render book with
    | Throw e => (Throw e, w)
    | Ok body =>
        let issued :=
          {| store := store w;
             calls := calls w ++ [Create (documentPath folder book) body] |} in
        match store w !! documentPath folder book with
        | Some _ => (Throw (VaultRejected FileAlreadyExists), issued)
        | None =>
            writeBooks folder rest
              {| store := <[documentPath folder book := File body]> (store w);
                 calls := calls issued |}
        end
    end.
Proof.
  cbn [writeBooks]. unfold bind, lift, vault_create, update, log, create, bind.
  destruct (render book); [|reflexivity]. simpl.
  destruct (store w !! documentPath folder book); reflexivity.
Qed.





(** Whatever its outcome, the loop only touches paths below the folder. *)
Lemma writeBooks_frame (books : list (string * SyncedBook)) (w : world) (q : string) :
  below folder q = false ->
  store (writeBooks folder books w).2 !! q = store w !! q.
Proof.
  intros Hq. revert w. induction books as [|[k book] books IH]; intros w;
    [reflexivity|].
  rewrite writeBooks_step. destruct (render book); [|reflexivity]. cbn zeta.
  destruct (store w !! documentPath folder book); [reflexivity|].
  rewrite IH. simpl. apply lookup_insert_ne. intros E.
  rewrite <- E, below_documentPath in Hq. discriminate.
Qed.

(** The outcome and the store reached do not depend on the log. *)
Lemma writeBooks_log (books : list (string * SyncedBook)) (m : vault) (cs cs' : list call) :
  (writeBooks folder books {| store := m; calls := cs |}).1
  = (writeBooks folder books {| store := m; calls := cs' |}).1
  /\ store (writeBooks folder books {| store := m; calls := cs |}).2
     = store (writeBooks folder books {| store := m; calls := cs' |}).2.
Proof.
  revert m cs cs'. induction books as [|[k book] books IH]; intros m cs cs';
    [split; reflexivity|].
  rewrite !writeBooks_step. destruct (render book); [|split; reflexivity].
  cbn zeta. cbn [store calls].
  destruct (m !! documentPath folder book); [split; reflexivity | apply IH].
Qed.

End WriteLoop.

(** * The shape of a run *)

Lemma createFolder_emptied (folder : string) (v : vault) :
  createFolder
    (match v !! folder with
     | Some _ => delete_recursive v folder
     | None => v
     end) folder
  = inr (emptied folder v).
Proof.
  unfold createFolder, emptied. destruct (v !! folder) eqn:E.
  - rewrite lookup_delete_recursive, decide_True by reflexivity. reflexivity.
  - now rewrite E.
Qed.

(** Every way a run can go, with the calls issued and the store reached. *)
Lemma run_unfold (e : env) (settings : AppleBooksPluginSettings) (v : vault) :
  run e settings v
  = let annotations := ANNOTATION_DB_FOLDER_ABSOLUTE_PATH e in
    let books := BOOKS_DB_FOLDER_ABSOLUTE_PATH e in
    let folder := highlightsFolder settings in
    match dbFileName (listing e annotations) with
    | None =>
        (Ok tt, {| store := v;
                   calls := [Readdir annotations; NewNotice annotationsNotFound] |})
    | Some a =>
        match dbFileName (listing e books) with
        | None =>
            (Ok tt, {| store := v;
                       calls := [Readdir annotations; Readdir books;
                                 NewNotice booksNotFound] |})
        | Some b =>
            let asked := [Readdir annotations; Readdir books;
                          Exec (annotationQuery e a)] in
            match exec e (annotationQuery e a) with
            | None => (Throw ExecRejected, {| store := v; calls := asked |})
            | Some annotationDBResult =>
                match annotationData (parseRows annotationDBResult) with
                | Throw err => (Throw err, {| store := v; calls := asked |})
                | Ok data =>
                    match exec e (booksQuery e b data) with
                    | None =>
                        (Throw ExecRejected,
                         {| store := v; calls := queryCalls e a b data |})
                    | Some booksDBResult =>
                        match
                          writeBooks folder
                            (entries (finalData data (parseRows booksDBResult)))
                            {| store := emptied folder v;
                               calls := queryCalls e a b data
                                          ++ replaceCalls folder v |}
                        with
                        | (Ok _, w) =>
                            (Ok tt, {| store := store w;
                                       calls := calls w ++ [NewNotice finished] |})
                        | (Throw err, w) => (Throw err, w)
                        end
                    end
                end
            end
        end
    end.
Proof.
  cbv zeta. unfold run, syncHighlights.
  unfold bind at 1. unfold fs_readdir at 1. unfold bind at 1, log at 1, ret at 1.
  cbn [store calls app]. fold (listing e (ANNOTATION_DB_FOLDER_ABSOLUTE_PATH e)).
  destruct (dbFileName (listing e (ANNOTATION_DB_FOLDER_ABSOLUTE_PATH e)))
    as [a|]; [|reflexivity].
  unfold bind at 1. unfold fs_readdir at 1. unfold bind at 1, log at 1, ret at 1.
  cbn [store calls app]. fold (listing e (BOOKS_DB_FOLDER_ABSOLUTE_PATH e)).
  destruct (dbFileName (listing e (BOOKS_DB_FOLDER_ABSOLUTE_PATH e)))
    as [b|]; [|reflexivity].
  unfold bind at 1. unfold child_exec at 1. unfold bind at 1, log at 1.
  cbn [store calls app]. fold (annotationQuery e a).
  destruct (exec e (annotationQuery e a)) as [out1|]; [|reflexivity].
  unfold ret at 1. unfold bind at 1. unfold lift at 1.
  destruct (annotationData (parseRows out1)) as [data|err]; [|reflexivity].
  unfold bind at 1. unfold child_exec at 1. unfold bind at 1, log at 1.
  cbn [store calls app]. fold (booksQuery e b data).
  destruct (exec e (booksQuery e b data)) as [out2|]; [|reflexivity].
  unfold ret at 1.
  unfold bind at 1. unfold vault_getAbstractFileByPath at 1.
  unfold bind at 1, log at 1. cbn [store calls app].
  unfold getAbstractFileByPath.
  unfold bind at 1.
  assert (Hdel :
    (match v !! highlightsFolder settings with
     | Some _ => vault_delete (highlightsFolder settings)
     | None => ret tt
     end)
      {| store := v;
         calls := queryCalls e a b data
                    ++ [GetAbstractFileByPath (highlightsFolder settings)] |}
    = (Ok tt,
       {| store := match v !! highlightsFolder settings with
                   | Some _ => delete_recursive v (highlightsFolder settings)
                   | None => v
                   end;
          calls := queryCalls e a b data
                     ++ GetAbstractFileByPath (highlightsFolder settings)
                     :: match v !! highlightsFolder settings with
                        | Some _ => [Delete (highlightsFolder settings)]
                        | None => []
                        end |})).
  { destruct (v !! highlightsFolder settings); reflexivity. }
  unfold queryCalls in Hdel at 1. cbn [app] in Hdel. rewrite Hdel. clear Hdel.
  unfold bind at 1. unfold vault_createFolder at 1.
  unfold bind at 1, log at 1, update at 1. cbn [store calls].
  rewrite createFolder_emptied.
  unfold bind at 1.
  replace ((queryCalls e a b data
              ++ GetAbstractFileByPath (highlightsFolder settings)
              :: match v !! highlightsFolder settings with
                 | Some _ => [Delete (highlightsFolder settings)]
                 | None => []
                 end) ++ [CreateFolder (highlightsFolder settings)])
    with (queryCalls e a b data ++ replaceCalls (highlightsFolder settings) v).
  2:{ unfold replaceCalls. rewrite <- app_assoc. reflexivity. }
  destruct (writeBooks _ _ _) as [[[]|err] w]; reflexivity.
Qed.

(** * Names kept at their first occurrence *)

Lemma In_distinct (k : string) (ks : list string) :
  In k (distinct ks) <-> In k ks.
Proof.
  induction ks as [|x ks IH]; simpl; [tauto|].
  rewrite List.filter_In, IH, negb_true_iff.
  destruct (String.eqb_spec k x) as [->|Hne]; [tauto|].
  split; [tauto|]. intros [E|H]; [congruence | tauto].
Qed.

Lemma NoDup_distinct (ks : list string) : List.NoDup (distinct ks).
Proof.
  induction ks as [|x ks IH]; simpl; constructor.
  - rewrite List.filter_In, String.eqb_refl. simpl. intros [_ H]. discriminate.
  - now apply List.NoDup_filter.
Qed.

Lemma length_distinct (ks : list string) :
  List.length (distinct ks) <= List.length ks.
Proof.
  induction ks as [|x ks IH]; simpl; [lia|].
  pose proof (List.filter_length_le
                (fun k' => negb (String.eqb k' x)) (distinct ks)). lia.
Qed.

Lemma filter_not_mem_nil (ks : list string) :
  List.filter (fun k => negb (mem k [])) ks = ks.
Proof.
  induction ks as [|x ks IH]; [reflexivity|].
  cbn [List.filter]. change (mem x []) with false. cbn [negb]. now rewrite IH.
Qed.

(** * The enumeration of any object, split into its two runs *)

Lemma keys_split {A} (o : obj A) :
  exists indices named,
    keys o = indices ++ named
    /\ StronglySorted indexLe indices
    /\ Permutation indices (List.filter isIndex (List.map fst o))
    /\ named = List.filter (fun k => negb (isIndex k)) (List.map fst o).
Proof.
  exists (List.map fst (List.map snd (index_props o))),
         (List.map fst (named_props o)).
  split; [unfold keys, entries; apply List.map_app|]. split; [|split].
  - pose proof (index_props_sorted o) as Hs.
    pose proof (index_props_number o) as Hn.
    induction (index_props o) as [|[n p] l IH]; simpl; constructor.
    + apply IH; [now inversion Hs | intros; apply Hn; now right].
    + inversion_clear Hs as [|? ? _ Hall].
      apply List.Forall_forall. intros k Hk.
      apply List.in_map_iff in Hk as (q & <- & Hq).
      apply List.in_map_iff in Hq as ([m q'] & <- & Hq).
      rewrite List.Forall_forall in Hall. specialize (Hall _ Hq).
      unfold indexLe. simpl in *.
      rewrite (Hn n p) by now left. rewrite (Hn m q') by now right.
      exact Hall.
  - rewrite (Permutation_map fst (index_props_perm o)).
    clear. induction o as [|[k a] o IH]; simpl; [reflexivity|].
    destruct (isIndex k); simpl; now rewrite IH.
  - rewrite named_props_filter.
    clear. induction o as [|[k a] o IH]; simpl; [reflexivity|].
    destruct (isIndex k); simpl; now rewrite IH.
Qed.

Lemma In_set_own {A} (o : obj A) (k k' : string) (a a' : A) :
  In (k', a') (set_own o k a) -> (k', a') = (k, a) \/ In (k', a') o.
Proof.
  induction o as [|[k0 a0] o IH]; simpl.
  - intros [E|[]]. left. congruence.
  - destruct (String.eqb_spec k0 k) as [->|Hne]; simpl.
    + intros [E|H]; [left; congruence | tauto].
    + intros [E|H]; [tauto|]. apply IH in H. tauto.
Qed.

Lemma In_assign {A} (o : obj A) (k k' : string) (a a' : A) :
  In (k', a') (assign o k a) -> (k', a') = (k, a) \/ In (k', a') o.
Proof.
  unfold assign. destruct (String.eqb k "__proto__"); [tauto | apply In_set_own].
Qed.

(** * The joined map *)

Lemma finalData_keys (data : obj (list HighlightData))
  (catalogRows : list (list string)) :
  forallb (fun row => negb (inherited (rowKey row))) catalogRows = true ->
  List.map fst (finalData data catalogRows) = catalogOrder data catalogRows.
Proof.
  intros H. unfold finalData. rewrite (keys_fold_joinRow _ _ H).
  simpl. apply filter_not_mem_nil.
Qed.

Lemma finalData_bookId (data : obj (list HighlightData))
  (catalogRows : list (list string)) (k : string) (book : SyncedBook) :
  In (k, book) (finalData data catalogRows) -> propertyKey (bookId book) = k.
Proof.
  unfold finalData.
  assert (H : forall final : obj SyncedBook,
             (forall k b, In (k, b) final -> propertyKey (bookId b) = k) ->
             forall k b, In (k, b) (fold_left (joinRow data) catalogRows final) ->
                         propertyKey (bookId b) = k).
  { induction catalogRows as [|row rows IH]; intros final Hinv; [exact Hinv|].
    simpl. apply IH. intros k' b' Hin. unfold joinRow in Hin.
    destruct (get data _); [| |now apply Hinv];
      apply In_assign in Hin as [[= -> ->]|Hin]; auto. }
  apply H. intros ? ? [].
Qed.

Lemma In_catalogOrder (data : obj (list HighlightData))
  (catalogRows : list (list string)) (k : string) :
  In k (catalogOrder data catalogRows)
  <-> In k (List.map fst data) /\ In k (List.map rowKey catalogRows).
Proof.
  unfold catalogOrder, matching. rewrite In_distinct, !List.in_map_iff. split.
  - intros (row & <- & Hin). apply List.filter_In in Hin as [Hin Ho].
    split; [|now exists row].
    unfold owns in Ho. destruct (get_own data (rowKey row)) as [hs|] eqn:E;
      [|discriminate].
    apply get_own_Some_In in E. exists (rowKey row, hs). auto.
  - intros [([k' hs] & <- & Hin) (row & E & Hrow)]. simpl in *.
    exists row. split; [exact E|]. apply List.filter_In. split; [exact Hrow|].
    unfold owns. destruct (get_own data (rowKey row)) eqn:Eg; [reflexivity|].
    apply get_own_None in Eg. exfalso. apply Eg. rewrite E.
    change k' with (fst (k', hs)). now apply List.in_map.
Qed.

Lemma length_catalogOrder (data : obj (list HighlightData))
  (catalogRows : list (list string)) :
  List.length (catalogOrder data catalogRows)
  <= Nat.min (List.length (List.map fst data)) (List.length catalogRows).
Proof.
  apply Nat.min_glb.
  - apply List.NoDup_incl_length; [apply NoDup_distinct|].
    intros k Hk. now apply In_catalogOrder in Hk.
  - unfold catalogOrder, matching.
    etransitivity; [apply length_distinct|]. rewrite List.length_map.
    apply List.filter_length_le.
Qed.

(** Without array indices among the identifiers, the books are enumerated
    in catalog order. *)
Lemma finalData_catalog_order (data : obj (list HighlightData))
  (catalogRows : list (list string)) :
  forallb (fun row => negb (inherited (rowKey row))) catalogRows = true ->
  forallb (fun k => negb (isIndex k)) (catalogOrder data catalogRows) = true ->
  keys (finalData data catalogRows) = catalogOrder data catalogRows.
Proof.
  intros Hrows Hnamed. unfold keys.
  rewrite entries_named; [now apply finalData_keys|].
  rewrite <- (finalData_keys data catalogRows Hrows) in Hnamed.
  now rewrite forallb_map in Hnamed.
Qed.

(** The books joined from catalog rows without inherited names carry an
    array of highlights, and so render. *)
Lemma finalData_renders (data : obj (list HighlightData))
  (catalogRows : list (list string)) (k : string) (book : SyncedBook) :
  forallb (fun row => negb (inherited (rowKey row))) catalogRows = true ->
  In (k, book) (finalData data catalogRows) ->
  render book = Ok (bodyOf book).
Proof.
  intros Hrows. unfold finalData.
  assert (H : forall final : obj SyncedBook,
             (forall k b, In (k, b) final -> render b = Ok (bodyOf b)) ->
             forall k b, In (k, b) (fold_left (joinRow data) catalogRows final) ->
                         render b = Ok (bodyOf b)).
  { induction catalogRows as [|row rows IH]; intros final Hinv; [exact Hinv|].
    cbn [forallb] in Hrows. apply andb_true_iff in Hrows as [Hrow Hrows].
    apply negb_true_iff in Hrow.
    simpl. apply (IH Hrows). intros k' b' Hin.
    rewrite (joinRow_own _ _ _ Hrow) in Hin.
    destruct (get_own data (rowKey row)) as [hs|]; [|now apply Hinv in Hin].
    apply In_set_own in Hin as [[= -> ->]|Hin]; [|now apply Hinv in Hin].
    now apply (render_Arr _ hs). }
  apply H. intros ? ? [].
Qed.

(** C1, as amended.  When no catalog row carries a name inherited from
    [Object.prototype], the books of the join are exactly those whose
    identifier is both a key of the grouped annotations and the first field
    of a catalog row; each book is filed under its identifier; there are at
    most as many books as grouped keys and as catalog rows; and the books are
    enumerated with the array-index identifiers first, in ascending numeric
    order, followed by the other identifiers in catalog order (each at its
    first catalog row). *)
Theorem join_keeps_common_books (data : obj (list HighlightData))
  (catalogRows : list (list string)) :
  forallb (fun row => negb (inherited (rowKey row))) catalogRows = true ->
  let final := finalData data catalogRows in
  (forall k, In k (keys final)
             <-> In k (keys data) /\ In k (List.map rowKey catalogRows))
  /\ (forall k book, In (k, book) (entries final) ->
                     propertyKey (bookId book) = k)
  /\ List.length (entries final)
     <= Nat.min (List.length (keys data)) (List.length catalogRows)
  /\ exists indices named,
       keys final = indices ++ named
       /\ StronglySorted indexLe indices
       /\ Permutation indices
            (List.filter isIndex (catalogOrder data catalogRows))
       /\ named = List.filter (fun k => negb (isIndex k))
                    (catalogOrder data catalogRows).
Proof.
  intros Hrows final. pose proof (finalData_keys data catalogRows Hrows) as Hk.
  fold final in Hk. split; [|split; [|split]].
  - intros k. rewrite !keys_In, Hk. apply In_catalogOrder.
  - intros k book H. apply (proj1 (entries_In _ _)) in H.
    now apply finalData_bookId in H.
  - rewrite entries_length, <- (List.length_map fst final), Hk.
    unfold keys. rewrite List.length_map, entries_length,
      <- (List.length_map fst data).
    apply length_catalogOrder.
  - rewrite <- Hk. apply keys_split.
Qed.

Lemma join_keeps_common_books_witness :
  let data : obj (list HighlightData) := [("B1", []); ("B2", [])] in
  let catalogRows := [["B1"; "Jane Doe"; "My Book"]] in
  let final := finalData data catalogRows in
  (forall k, In k (keys final)
             <-> In k (keys data) /\ In k (List.map rowKey catalogRows))
  /\ (forall k book, In (k, book) (entries final) ->
                     propertyKey (bookId book) = k)
  /\ List.length (entries final)
     <= Nat.min (List.length (keys data)) (List.length catalogRows)
  /\ exists indices named,
       keys final = indices ++ named
       /\ StronglySorted indexLe indices
       /\ Permutation indices
            (List.filter isIndex (catalogOrder data catalogRows))
       /\ named = List.filter (fun k => negb (isIndex k))
                    (catalogOrder data catalogRows).
Proof.
  exact (join_keeps_common_books
           [("B1", []); ("B2", [])] [["B1"; "Jane Doe"; "My Book"]] eq_refl).
Defined.

(** C1, as stated, fails on the enumeration order: with two numeric
    identifiers the catalog lists [909783683] first, and the documents are
    written for [395211307] first. *)
Lemma emission_order_counterexample :
  exists data,
    annotationData (parseRows "909783683|||A1|||x@@@395211307|||A2|||y@@@")
    = Ok data
    /\ let catalogRows :=
         parseRows "909783683|||Ann|||Second@@@395211307|||Bob|||First@@@" in
       List.map rowKey catalogRows = ["909783683"; "395211307"]
       /\ keys (finalData data catalogRows) = ["395211307"; "909783683"]
       /\ keys (finalData data catalogRows) <> List.map rowKey catalogRows
       /\ List.filter
            (fun c => match c with Create _ _ => true | _ => false end)
            (calls (run numericIds DEFAULT_SETTINGS ∅).2)
          = [ Create "Apple Books Highlights/First.md"
                (bodyOf (bookOf ["395211307"; "Bob"; "First"]
                           [ {| annotationId := Some "A2";
                                selectedText := Some "y" |} ]));
              Create "Apple Books Highlights/Second.md"
                (bodyOf (bookOf ["909783683"; "Ann"; "Second"]
                           [ {| annotationId := Some "A1";
                                selectedText := Some "x" |} ])) ].
Proof.
  eexists. split; [vm_compute; reflexivity|].
  cbv zeta. split; [reflexivity|]. split; [reflexivity|].
  split; [vm_compute; discriminate | vm_compute; reflexivity].
Qed.

(** * Grouping, for all rows *)

(** On rows none of which carries a name inherited from [Object.prototype],
    the reduction completes; the property of a name is created at the first
    row bearing it and holds the highlights of the rows bearing it, in row
    order. *)
Lemma grouping_preserves_row_order (rows : list (list string)) :
  forallb (fun row => negb (inherited (rowKey row))) rows = true ->
  exists data,
    annotationData rows = Ok data
    /\ List.map fst data = distinct (List.map rowKey rows)
    /\ forall k,
         get_own data k
         = if mem k (List.map rowKey rows)
           then Some (List.map highlightOf (rowsOf k rows))
           else None.
Proof.
  intros H. destruct (reduce_group rows H []) as (data & Hred & Hget & Hkeys).
  exists data. split; [exact Hred|]. split.
  - rewrite Hkeys. simpl. apply filter_not_mem_nil.
  - intros k. rewrite Hget. reflexivity.
Qed.

Lemma grouping_throws (rows : list (list string)) :
  existsb (fun row => inherited (rowKey row)) rows = true ->
  annotationData rows = Throw TypeError.
Proof. intros H. now apply reduce_group_throws. Qed.

Lemma existsb_false_forallb {A} (p : A -> bool) (l : list A) :
  existsb p l = false -> forallb (fun x => negb (p x)) l = true.
Proof.
  induction l as [|x l IH]; [reflexivity|]. simpl. intros H.
  apply orb_false_iff in H as [-> H]. now apply IH.
Qed.

(** The own names of a grouped map are never inherited ones. *)
Lemma annotationData_own_names (rows : list (list string))
  (data : obj (list HighlightData)) (k : string) :
  annotationData rows = Ok data ->
  owns data k = true -> inherited k = false.
Proof.
  intros Hdata Hk.
  destruct (existsb (fun row => inherited (rowKey row)) rows) eqn:E.
  - rewrite grouping_throws in Hdata by exact E. discriminate.
  - apply existsb_false_forallb in E.
    destruct (grouping_preserves_row_order rows E) as (data' & Hd & Hkeys & _).
    rewrite Hdata in Hd. injection Hd as <-.
    assert (Hin : In k (List.map fst data)).
    { unfold owns in Hk. destruct (get_own data k) eqn:Eg; [|discriminate].
      apply get_own_Some_In in Eg. change k with (fst (k, l)).
      now apply List.in_map. }
    rewrite Hkeys in Hin. apply (proj1 (In_distinct _ _)) in Hin.
    apply List.in_map_iff in Hin as (row & <- & Hrow).
    rewrite forallb_forall in E. apply E in Hrow.
    now apply negb_true_iff in Hrow.
Qed.

(** C6 on its failing input.  A row whose book identifier is the name of a
    member every plain object inherits is not grouped: the inherited member
    is truthy, so no sequence is created for it, and it has no [push]. *)
Theorem grouping_inherited_name_throws :
  parseRows "constructor|||A1|||Great quote@@@"
  = [["constructor"; "A1"; "Great quote"]]
  /\ annotationData (parseRows "constructor|||A1|||Great quote@@@")
     = Throw TypeError
  /\ (run (answering (Some "constructor|||A1|||Great quote@@@")
                     (Some "constructor|||Jane Doe|||My Book@@@"))
          DEFAULT_SETTINGS withNote).1
     = Throw TypeError.
Proof. repeat split; vm_compute; reflexivity. Qed.

(** * The last catalog row of a book *)

Lemma rowsOf_matching (data : obj (list HighlightData))
  (catalogRows : list (list string)) (k : string) :
  owns data k = true ->
  rowsOf k (matching data catalogRows) = rowsOf k catalogRows.
Proof.
  intros Hk. unfold rowsOf, matching. rewrite filter_filter_and.
  apply List.filter_ext. intros row.
  destruct (String.eqb_spec (rowKey row) k) as [->|]; [|reflexivity].
  now rewrite Hk.
Qed.

(** C10.  The joined map holds at most one book per identifier; when the
    catalog lists an identifier of the grouped annotations in several rows,
    the one book stored for it takes author and title from the last of these
    rows, and its highlights are the sequence grouped for the identifier. *)
Theorem join_last_catalog_row_wins
  (annotationRows catalogRows : list (list string))
  (data : obj (list HighlightData)) :
  annotationData annotationRows = Ok data ->
  let final := finalData data catalogRows in
  List.NoDup (keys final)
  /\ forall k hs row,
       get_own data k = Some hs ->
       last (rowsOf k catalogRows) = Some row ->
       In (k, bookOf row hs) (entries final)
       /\ forall book, In (k, book) (entries final) -> book = bookOf row hs.
Proof.
  intros Hdata final.
  assert (Hnd : List.NoDup (List.map fst final)).
  { apply NoDup_fold_joinRow. constructor. }
  split; [now apply keys_NoDup|]. intros k hs row Hk Hrow.
  assert (Ho : owns data k = true) by (unfold owns; now rewrite Hk).
  assert (Hin : inherited k = false)
    by exact (annotationData_own_names _ _ _ Hdata Ho).
  assert (Hget : get_own final k = Some (bookOf row hs)).
  { unfold final, finalData. rewrite (get_own_fold_joinRow _ _ _ Hin).
    rewrite (rowsOf_matching _ _ _ Ho), Hrow, Hk. reflexivity. }
  split.
  - apply entries_In. now apply get_own_Some_In.
  - intros book Hb. apply (proj1 (entries_In _ _)) in Hb.
    apply (In_get_own _ _ _ Hnd) in Hb. congruence.
Qed.

Lemma join_last_catalog_row_wins_witness :
  let quote := {| annotationId := Some "A1";
                  selectedText := Some "Great quote" |} in
  let final :=
    finalData [("B1", [quote])]
      [["B1"; "J. Doe"; "Draft"]; ["B1"; "Jane Doe"; "My Book"]] in
  List.NoDup (keys final)
  /\ In ("B1", bookOf ["B1"; "Jane Doe"; "My Book"] [quote]) (entries final)
  /\ forall book, In ("B1", book) (entries final) ->
       book = bookOf ["B1"; "Jane Doe"; "My Book"] [quote].
Proof.
  intros quote final.
  pose proof (join_last_catalog_row_wins
                [["B1"; "A1"; "Great quote"]]
                [["B1"; "J. Doe"; "Draft"]; ["B1"; "Jane Doe"; "My Book"]]
                [("B1", [quote])] eq_refl) as [Hnd Hlast].
  split; [exact Hnd|].
  exact (Hlast "B1" [quote] ["B1"; "Jane Doe"; "My Book"] eq_refl eq_refl).
Defined.

(** * The separator scheme *)

(** C5, as stated, fails: a field may end in a character of the separator
    without containing the separator, and the cut then falls one character
    early. *)
Lemma round_trip_counterexample :
  forallb (forallb separatorFree) [["a|"; "b"]] = true
  /\ forallb (fun row => truthy (join "|||" row)) [["a|"; "b"]] = true
  /\ encode [["a|"; "b"]] = "a||||b"
  /\ parseRows (encode [["a|"; "b"]]) = [["a"; "|b"]]
  /\ parseRows (encode [["a|"; "b"]]) <> [["a|"; "b"]].
Proof. repeat split; try reflexivity. vm_compute. discriminate. Qed.

Lemma separator_round_trip_witness :
  parseRows (encode [["B1"; "A1"; "Great quote"]; ["B1"; "A2"; "a | b @ c"]])
  = [["B1"; "A1"; "Great quote"]; ["B1"; "A2"; "a | b @ c"]].
Proof.
  exact (separator_round_trip
           [["B1"; "A1"; "Great quote"]; ["B1"; "A2"; "a | b @ c"]]
           eq_refl eq_refl).
Defined.

(** * Locating the databases *)

Lemma endsWith_truthy (fileName : string) :
  endsWith fileName ".sqlite" = true -> truthy fileName = true.
Proof. destruct fileName; [discriminate | reflexivity]. Qed.

Lemma dbFileName_missing (files : list string) :
  forallb (fun fileName => negb (endsWith fileName ".sqlite")) files = true ->
  dbFileName files = None.
Proof.
  intros H. unfold dbFileName.
  replace (List.filter (fun fileName => endsWith fileName ".sqlite") files)
    with (@nil string); [reflexivity|].
  induction files as [|f files IH]; [reflexivity|].
  cbn [forallb] in H. apply andb_true_iff in H as [Hf H].
  apply negb_true_iff in Hf. cbn [List.filter]. rewrite Hf. now apply IH.
Qed.

Lemma dbFileName_found (files : list string) :
  existsb (fun fileName => endsWith fileName ".sqlite") files = true ->
  exists name, dbFileName files = Some name.
Proof.
  intros H. unfold dbFileName.
  induction files as [|f files IH]; [discriminate|].
  cbn [existsb] in H. cbn [List.filter].
  destruct (endsWith f ".sqlite") eqn:Ef.
  - exists f. simpl. now rewrite (endsWith_truthy _ Ef).
  - now apply IH.
Qed.

Lemma forallb_negb_existsb {A} (p : A -> bool) (l : list A) :
  forallb (fun x => negb (p x)) l = true -> existsb p l = false.
Proof.
  induction l as [|x l IH]; [reflexivity|]. simpl. intros H.
  apply andb_true_iff in H as [Hx H]. apply negb_true_iff in Hx.
  rewrite Hx. now apply IH.
Qed.

Lemma run_tolerant (e : env) (settings : AppleBooksPluginSettings) (v : vault) :
  run e settings v = run (tolerant e) settings v.
Proof. rewrite (run_unfold e), (run_unfold (tolerant e)). reflexivity. Qed.

(** C2.  A container that cannot be listed counts as an empty one: the run
    is the run in which the listing came back empty.  When one of the two
    containers holds no file ending in [.sqlite], the run shows the notice
    that names the missing store (the annotation store when it is the one
    missing, the books store otherwise) and returns; it has listed at most
    the two containers, has run no query, and has left the vault as it
    was. *)
Theorem missing_database_aborts (e : env)
  (settings : AppleBooksPluginSettings) (v : vault) :
  forallb (fun fileName => negb (endsWith fileName ".sqlite"))
    (listing e (ANNOTATION_DB_FOLDER_ABSOLUTE_PATH e)) = true
  \/ forallb (fun fileName => negb (endsWith fileName ".sqlite"))
       (listing e (BOOKS_DB_FOLDER_ABSOLUTE_PATH e)) = true ->
  run e settings v = run (tolerant e) settings v
  /\ run e settings v
     = (Ok tt,
        {| store := v;
           calls :=
             if existsb (fun fileName => endsWith fileName ".sqlite")
                  (listing e (ANNOTATION_DB_FOLDER_ABSOLUTE_PATH e))
             then [ Readdir (ANNOTATION_DB_FOLDER_ABSOLUTE_PATH e);
                    Readdir (BOOKS_DB_FOLDER_ABSOLUTE_PATH e);
                    NewNotice booksNotFound ]
             else [ Readdir (ANNOTATION_DB_FOLDER_ABSOLUTE_PATH e);
                    NewNotice annotationsNotFound ] |}).
Proof.
  intros H. split; [apply run_tolerant|]. rewrite run_unfold. cbv zeta.
  destruct (existsb _ (listing e (ANNOTATION_DB_FOLDER_ABSOLUTE_PATH e)))
    eqn:Ea.
  - destruct (dbFileName_found _ Ea) as [a ->].
    destruct H as [H|H].
    + apply forallb_negb_existsb in H. congruence.
    + now rewrite (dbFileName_missing _ H).
  - apply existsb_false_forallb in Ea. now rewrite (dbFileName_missing _ Ea).
Qed.

Lemma missing_database_aborts_witness :
  run unlistable DEFAULT_SETTINGS withNote
  = (Ok tt,
     {| store := withNote;
        calls :=
          [ Readdir "/Users/reader/Library/Containers/com.apple.iBooksX/Data/Documents/AEAnnotation";
            NewNotice "Apple Books Annotation Database not found, cannot sync." ] |}).
Proof.
  exact (proj2 (missing_database_aborts unlistable DEFAULT_SETTINGS withNote
                  (or_introl eq_refl))).
Defined.

(** * No annotation *)

Lemma finalData_nothing_grouped (catalogRows : list (list string)) :
  forallb (fun row => negb (inherited (rowKey row))) catalogRows = true ->
  finalData [] catalogRows = [].
Proof.
  intros H.
  pose proof (finalData_keys [] catalogRows H) as Hk.
  unfold catalogOrder, matching in Hk.
  replace (List.filter (fun row => owns [] (rowKey row)) catalogRows)
    with (@nil (list string)) in Hk.
  - now destruct (finalData [] catalogRows).
  - clear. induction catalogRows as [|row rows IH]; [reflexivity | exact IH].
Qed.

(** C9, as amended.  When both database files are found and the annotation
    query prints no row, the grouped map is empty and the catalog query ends
    in [ZASSETID in ()].  What follows is the engine's decision: if it
    rejects the query the run stops there, with the vault untouched; if it
    answers (with rows of no inherited name, in particular with no row) the
    run deletes the destination folder if it exists, creates it again,
    writes no document and shows the notice of a completed run. *)
Theorem empty_annotations_query (e : env)
  (settings : AppleBooksPluginSettings) (v : vault)
  (a b annotationDBResult : string) :
  dbFileName (listing e (ANNOTATION_DB_FOLDER_ABSOLUTE_PATH e)) = Some a ->
  dbFileName (listing e (BOOKS_DB_FOLDER_ABSOLUTE_PATH e)) = Some b ->
  exec e (annotationQuery e a) = Some annotationDBResult ->
  parseRows annotationDBResult = [] ->
  annotationData (parseRows annotationDBResult) = Ok []
  /\ booksDataSelectQuery []
     = "SELECT ZASSETID,ZAUTHOR,ZTITLE from ZBKLIBRARYASSET where ZASSETID in ()"
  /\ match exec e (booksQuery e b []) with
     | None =>
         run e settings v
         = (Throw ExecRejected, {| store := v; calls := queryCalls e a b [] |})
     | Some booksDBResult =>
         forallb (fun row => negb (inherited (rowKey row)))
           (parseRows booksDBResult) = true ->
         run e settings v
         = (Ok tt,
            {| store := emptied (highlightsFolder settings) v;
               calls := queryCalls e a b []
                          ++ replaceCalls (highlightsFolder settings) v
                          ++ [NewNotice finished] |})
     end.
Proof.
  intros Ha Hb Hout Hrows. rewrite Hrows.
  split; [reflexivity|]. split; [reflexivity|].
  rewrite run_unfold. cbv zeta. rewrite Ha, Hb, Hout, Hrows.
  change (annotationData []) with (Ok (@nil (string * list HighlightData))).
  cbv iota beta.
  destruct (exec e (booksQuery e b [])) as [out2|]; [|reflexivity].
  intros Hcat. rewrite (finalData_nothing_grouped _ Hcat).
  simpl. now rewrite <- app_assoc.
Qed.

Lemma empty_annotations_query_witness :
  run noAnnotations DEFAULT_SETTINGS withNote
  = (Ok tt,
     {| store := emptied "Apple Books Highlights" withNote;
        calls := queryCalls noAnnotations annotationsFile libraryFile []
                   ++ replaceCalls "Apple Books Highlights" withNote
                   ++ [NewNotice finished] |}).
Proof.
  exact (proj2 (proj2 (empty_annotations_query noAnnotations DEFAULT_SETTINGS
                         withNote annotationsFile libraryFile ""
                         eq_refl eq_refl eq_refl eq_refl))
           eq_refl).
Defined.

(** C9, as stated, fails: an engine that answers the query with the empty
    IN-list by printing no row lets the run go on; the destination folder is
    deleted with the note in it, created again, and the run reports
    success. *)
Lemma empty_annotations_counterexample :
  let outcome := run noAnnotations DEFAULT_SETTINGS withNote in
  exec noAnnotations
    (booksQuery noAnnotations libraryFile []) = Some ""
  /\ outcome.1 = Ok tt
  /\ In (Delete "Apple Books Highlights") (calls outcome.2)
  /\ In (CreateFolder "Apple Books Highlights") (calls outcome.2)
  /\ In (NewNotice finished) (calls outcome.2)
  /\ withNote !! "Apple Books Highlights/My own note.md" = Some (File "keep me")
  /\ store outcome.2 !! "Apple Books Highlights/My own note.md" = None.
Proof.
  cbv zeta. split; [reflexivity|]. split; [reflexivity|].
  split; [vm_compute; tauto|]. split; [vm_compute; tauto|].
  split; [vm_compute; tauto|]. split; vm_compute; reflexivity.
Qed.

(** * Runs that reach the vault *)

Lemma below_irrefl (p : string) : below p p = false.
Proof.
  unfold below. induction p as [|c p IH]; [reflexivity|].
  simpl. destruct (ascii_dec c c); [exact IH | reflexivity].
Qed.

(** A run that joins books goes through the write loop, from the emptied
    folder. *)
Lemma run_writes (e : env) (settings : AppleBooksPluginSettings) (v : vault)
  (books : list SyncedBook) :
  syncedBooks e = Some books ->
  exists a b data final,
    books = List.map snd (entries final)
    /\ run e settings v
       = match
           writeBooks (highlightsFolder settings) (entries final)
             {| store := emptied (highlightsFolder settings) v;
                calls := queryCalls e a b data
                           ++ replaceCalls (highlightsFolder settings) v |}
         with
         | (Ok _, w) =>
             (Ok tt, {| store := store w;
                        calls := calls w ++ [NewNotice finished] |})
         | (Throw err, w) => (Throw err, w)
         end.
Proof.
  unfold syncedBooks. rewrite run_unfold. cbv zeta.
  destruct (dbFileName (listing e (ANNOTATION_DB_FOLDER_ABSOLUTE_PATH e)))
    as [a|]; [|discriminate].
  destruct (dbFileName (listing e (BOOKS_DB_FOLDER_ABSOLUTE_PATH e)))
    as [b|]; [|discriminate].
  destruct (exec e (annotationQuery e a)) as [out1|]; [|discriminate].
  destruct (annotationData (parseRows out1)) as [data|]; [|discriminate].
  destruct (exec e (booksQuery e b data)) as [out2|]; [|discriminate].
  intros [= <-]. now exists a, b, data, (finalData data (parseRows out2)).
Qed.








(** * Running twice *)

Lemma emptied_again (folder : string) (v m : vault) :
  rooted v folder ->
  (forall q, below folder q = false -> m !! q = emptied folder v !! q) ->
  emptied folder m = emptied folder v.
Proof.
  intros Hr Hm.
  assert (Hf : m !! folder = Some Folder).
  { rewrite Hm by apply below_irrefl. unfold emptied. apply lookup_insert_eq. }
  assert (Hrm : rooted m folder) by (intros E; congruence).
  apply map_eq. intros q.
  rewrite (lookup_emptied _ _ _ Hr), (lookup_emptied _ _ _ Hrm).
  destruct (decide (q = folder)); [reflexivity|].
  destruct (below folder q) eqn:Eq; [reflexivity|].
  rewrite (Hm _ Eq), (lookup_emptied _ _ _ Hr), Eq.
  now rewrite decide_False.
Qed.

(** The second run takes the branch the first took. *)
Ltac same_branch := cbn [snd store]; rewrite run_unfold; cbv zeta.

(** C7.  With the same answers from the file system and the query engine,
    a second run, started from the vault the first run left, ends as the
    first did and leaves the same vault: the same paths hold the same
    texts. *)
Theorem sync_twice_same_documents (e : env)
  (settings : AppleBooksPluginSettings) (v : vault) :
  rooted v (highlightsFolder settings) ->
  let first := run e settings v in
  let second := run e settings (store first.2) in
  second.1 = first.1
  /\ store second.2 = store first.2
  /\ forall path, store second.2 !! path = store first.2 !! path.
Proof.
  intros Hr first second.
  assert (H : second.1 = first.1 /\ store second.2 = store first.2);
    [|destruct H as [H1 H2]; rewrite H2; auto].
  unfold second, first. clear first second.
  rewrite (run_unfold e settings v). cbv zeta.
  destruct (dbFileName (listing e (ANNOTATION_DB_FOLDER_ABSOLUTE_PATH e)))
    as [a|] eqn:Ea.
  2:{ same_branch. now rewrite Ea. }
  destruct (dbFileName (listing e (BOOKS_DB_FOLDER_ABSOLUTE_PATH e)))
    as [b|] eqn:Eb.
  2:{ same_branch. now rewrite Ea, Eb. }
  destruct (exec e (annotationQuery e a)) as [out1|] eqn:E1.
  2:{ same_branch. now rewrite Ea, Eb, E1. }
  destruct (annotationData (parseRows out1)) as [data|err] eqn:Ed.
  2:{ same_branch. now rewrite Ea, Eb, E1, Ed. }
  destruct (exec e (booksQuery e b data)) as [out2|] eqn:E2.
  2:{ same_branch. now rewrite Ea, Eb, E1, Ed, E2. }
  set (folder := highlightsFolder settings) in *.
  set (books := entries (finalData data (parseRows out2))).
  set (cs := queryCalls e a b data ++ replaceCalls folder v).
  pose proof (writeBooks_frame folder books
                {| store := emptied folder v; calls := cs |}) as Hframe.
  set (loop := writeBooks folder books
                 {| store := emptied folder v; calls := cs |}) in *.
  assert (Hstore :
    store (match loop with
           | (Ok _, w) =>
               (Ok tt, {| store := store w;
                          calls := calls w ++ [NewNotice finished] |})
           | (Throw err, w) => (Throw err, w)
           end).2 = store loop.2)
    by (destruct loop as [[[]|err] w]; reflexivity).
  rewrite Hstore, run_unfold. cbv zeta. rewrite Ea, Eb, E1, Ed, E2.
  fold folder books.
  rewrite (emptied_again folder v (store loop.2) Hr Hframe).
  set (cs2 := queryCalls e a b data ++ replaceCalls folder (store loop.2)).
  destruct (writeBooks_log folder books (emptied folder v) cs2 cs)
    as [Hres Hst].
  fold loop in Hres, Hst.
  set (loop2 := writeBooks folder books
                  {| store := emptied folder v; calls := cs2 |}) in *.
  clearbody loop loop2.
  destruct loop2 as [[[]|err'] w']; destruct loop as [[[]|err] w];
    simpl in *; try discriminate; auto.
Qed.

Lemma sync_twice_same_documents_witness :
  let first := run oneBook DEFAULT_SETTINGS withNote in
  let second := run oneBook DEFAULT_SETTINGS (store first.2) in
  second.1 = first.1
  /\ store second.2 = store first.2
  /\ forall path, store second.2 !! path = store first.2 !! path.
Proof.
  apply (sync_twice_same_documents oneBook DEFAULT_SETTINGS withNote).
  intros H. vm_compute in H. discriminate H.
Defined.

(** * Two books, one title *)





(** * The rendered text *)

Lemma highlightsSection_join (hs : list HighlightData) :
  join rule (List.map join_elem
               (List.map (fun highlight => selectedText highlight) hs))
  = highlightsSection hs.
Proof.
  induction hs as [|h hs IH]; [reflexivity|].
  destruct hs as [|h' hs]; [reflexivity|].
  change (highlightsSection (h :: h' :: hs))
    with (join_elem (selectedText h) +:+ rule +:+ highlightsSection (h' :: hs)).
  rewrite <- IH. reflexivity.
Qed.

(** C4.  The text written for a book is a metadata section, with the
    author in an [Author] line and the book identifier in the address of the
    link, followed by a highlights section that lists the selected texts in
    the order of the grouped sequence, a rule between each two.  For the two
    annotation rows and the catalog row of the specification, the run
    creates the one document [My Book.md], with the author line, the link to
    [B1], and the two quotes in order around a rule. *)
Theorem rendered_document :
  (forall (id author title : jsval) (hs : list HighlightData),
     let book := {| bookId := id; authorName := author; bookTitle := title;
                    highlights := Arr hs |} in
     render book
     = Ok (metadataSection book +:+ lf +:+ "## Highlights" +:+ lf
             +:+ highlightsSection hs))
  /\ (forall (h h' : HighlightData) (hs : list HighlightData),
        highlightsSection (h :: h' :: hs)
        = join_elem (selectedText h) +:+ lf +:+ lf +:+ "---" +:+ lf
            +:+ highlightsSection (h' :: hs))
  /\ parseRows "B1|||A1|||Great quote@@@B1|||A2|||Another line@@@"
     = [["B1"; "A1"; "Great quote"]; ["B1"; "A2"; "Another line"]]
  /\ parseRows "B1|||Jane Doe|||My Book@@@" = [["B1"; "Jane Doe"; "My Book"]]
  /\ (run oneBook DEFAULT_SETTINGS ∅).1 = Ok tt
  /\ List.filter (fun c => match c with Create _ _ => true | _ => false end)
       (calls (run oneBook DEFAULT_SETTINGS ∅).2)
     = [ Create "Apple Books Highlights/My Book.md"
           ("## Metadata" +:+ lf
              +:+ "- Author: Jane Doe" +:+ lf
              +:+ "- [Apple Books Link](ibooks://assetid/B1)" +:+ lf
              +:+ lf
              +:+ "## Highlights" +:+ lf
              +:+ "Great quote" +:+ lf
              +:+ lf
              +:+ "---" +:+ lf
              +:+ "Another line") ].
Proof.
  split; [|split; [|split; [|split; [|split]]]].
  - intros id author title hs book. unfold render, metadataSection.
    cbn [highlights authorName bookId book]. rewrite highlightsSection_join.
    now rewrite !append_assoc.
  - intros h h' hs.
    change (highlightsSection (h :: h' :: hs))
      with (join_elem (selectedText h) +:+ rule +:+ highlightsSection (h' :: hs)).
    unfold rule. now rewrite !append_assoc.
  - reflexivity.
  - reflexivity.
  - reflexivity.
  - vm_compute. reflexivity.
Qed.

(** * Further properties: what the parser yields *)






(** * Further properties: the text the engine prints *)

Lemma split_join_terminated (sep : string) (fs : list string) :
  truthy sep = true ->
  fs <> [] ->
  forallb (clean sep) fs = true ->
  split (join sep fs +:+ sep) sep = fs ++ [EmptyString].
Proof.
  intros Hsep Hne Hall.
  assert (Hgo : split_from sep (join sep fs +:+ sep) 0 "" = fs ++ [""]).
  { destruct fs as [|f fs]; [congruence|]. clear Hne.
    revert f Hall. induction fs as [|g fs IH]; intros f Hall.
    - simpl in Hall. rewrite andb_true_r in Hall. cbn [join].
      replace (f +:+ sep) with (f +:+ sep +:+ "")
        by now rewrite (append_empty_r sep).
      now rewrite split_from_clean.
    - cbn [forallb] in Hall. apply andb_true_iff in Hall as [Hf Hrest].
      change (join sep (f :: g :: fs)) with (f +:+ sep +:+ join sep (g :: fs)).
      rewrite !append_assoc. rewrite split_from_clean by assumption.
      simpl String.append. cbn [app]. f_equal. now apply IH. }
  unfold split. destruct sep; [discriminate | exact Hgo].
Qed.

Lemma printed_encode (matrix : list (list string)) :
  matrix <> [] -> printed matrix = encode matrix +:+ "@@@".
Proof.
  destruct matrix as [|row matrix]; [congruence|]. intros _. revert row.
  induction matrix as [|row' matrix IH]; intros row.
  - unfold encode. simpl. reflexivity.
  - change (printed (row :: row' :: matrix))
      with (join "|||" row +:+ "@@@" +:+ printed (row' :: matrix)).
    rewrite (IH row'). unfold encode. cbn [List.map].
    change (join "@@@" (join "|||" row :: join "|||" row' :: List.map (join "|||") matrix))
      with (join "|||" row +:+ "@@@"
              +:+ join "@@@" (join "|||" row' :: List.map (join "|||") matrix)).
    now rewrite !append_assoc.
Qed.

Lemma filter_truthy_app_empty (rows : list string) :
  forallb truthy rows = true ->
  List.filter truthy (rows ++ [EmptyString]) = rows.
Proof.
  intros H. rewrite List.filter_app, filter_truthy_all by exact H.
  simpl. apply app_nil_r.
Qed.

Lemma map_split_rows (matrix : list (list string)) :
  forallb (forallb admissible) matrix = true ->
  forallb (fun row => truthy (join "|||" row)) matrix = true ->
  List.map (fun row => split row "|||") (List.map (join "|||") matrix) = matrix.
Proof.
  intros Hfields Hrows. rewrite List.map_map.
  induction matrix as [|r m IH]; [reflexivity|].
  cbn [forallb] in Hfields, Hrows.
  apply andb_true_iff in Hfields as [Hr Hm].
  apply andb_true_iff in Hrows as [Hr' Hm'].
  cbn [List.map]. f_equal; [|now apply IH].
  apply split_join; [reflexivity | | ].
  - intros ->. discriminate.
  - rewrite forallb_forall in Hr |- *. intros f Hf.
    now apply admissible_clean_field, Hr.
Qed.

(** Parsing what the engine prints. *)
Lemma parseRows_printed (matrix : list (list string)) :
  forallb (forallb admissible) matrix = true ->
  forallb (fun row => truthy (join "|||" row)) matrix = true ->
  parseRows (printed matrix) = matrix.
Proof.
  intros Hfields Hrows.
  destruct matrix as [|row rest]; [reflexivity|].
  rewrite printed_encode by discriminate. unfold parseRows, rawRows, encode.
  rewrite split_join_terminated.
  - rewrite filter_truthy_app_empty by now rewrite forallb_map.
    now apply map_split_rows.
  - reflexivity.
  - discriminate.
  - rewrite forallb_map. rewrite forallb_forall in Hfields |- *.
    intros r Hr. now apply admissible_clean_row, Hfields.
Qed.

(** X2.  The text the engine prints ends every row with the row separator;
    the parser takes it as it is.  For a matrix whose fields contain neither
    separator and do not end in [|] or [@], and whose rows are not empty
    once joined, parsing the printed text gives the matrix back: the last
    separator adds no row. *)
Theorem printed_output_parses_back (matrix : list (list string)) :
  forallb (forallb admissible) matrix = true ->
  forallb (fun row => truthy (join "|||" row)) matrix = true ->
  parseRows (printed matrix) = matrix.
Proof. apply parseRows_printed. Qed.

Lemma printed_output_parses_back_witness :
  parseRows (printed [["B1"; "A1"; "Great quote"]; ["B1"; "A2"; "a | b @ c"]])
  = [["B1"; "A1"; "Great quote"]; ["B1"; "A2"; "a | b @ c"]].
Proof.
  exact (printed_output_parses_back
           [["B1"; "A1"; "Great quote"]; ["B1"; "A2"; "a | b @ c"]]
           eq_refl eq_refl).
Defined.

(** X3.  The parser has no escape for the separators.  A selected text
    that contains the field separator is cut at it: the row parses into more
    than three fields, of which the highlight keeps the third.  A selected
    text that contains the row separator ends its row there: what follows
    becomes a row of its own, whose only field is read as a book identifier
    and whose highlight has neither identifier nor text. *)
Theorem separator_inside_text (id ann t1 t2 : string) :
  forallb admissible [id; ann; t1; t2] = true ->
  truthy id = true ->
  truthy t2 = true ->
  (parseRows (printed [[id; ann; t1 +:+ "|||" +:+ t2]]) = [[id; ann; t1; t2]]
   /\ List.map highlightOf (parseRows (printed [[id; ann; t1 +:+ "|||" +:+ t2]]))
      = [ {| annotationId := Some ann; selectedText := Some t1 |} ])
  /\ (parseRows (printed [[id; ann; t1 +:+ "@@@" +:+ t2]])
      = [[id; ann; t1]; [t2]]
      /\ List.map rowKey (parseRows (printed [[id; ann; t1 +:+ "@@@" +:+ t2]]))
         = [id; t2]
      /\ List.map highlightOf
           (parseRows (printed [[id; ann; t1 +:+ "@@@" +:+ t2]]))
         = [ {| annotationId := Some ann; selectedText := Some t1 |};
             {| annotationId := None; selectedText := None |} ]).
Proof.
  intros Hadm Hid Ht2.
  assert (Hnonempty : forall rest, truthy (join "|||" (id :: rest)) = true).
  { intros rest. destruct id; [discriminate|]. now destruct rest. }
  cbn [forallb] in Hadm.
  apply andb_true_iff in Hadm as [Hi Hadm].
  apply andb_true_iff in Hadm as [Ha Hadm].
  apply andb_true_iff in Hadm as [H1 Hadm].
  apply andb_true_iff in Hadm as [H2 _].
  assert (Efield : parseRows (printed [[id; ann; t1 +:+ "|||" +:+ t2]])
                   = [[id; ann; t1; t2]]).
  { change (printed [[id; ann; t1 +:+ "|||" +:+ t2]])
      with (printed [[id; ann; t1; t2]]).
    apply parseRows_printed.
    - cbn [forallb]. now rewrite Hi, Ha, H1, H2.
    - cbn [forallb]. now rewrite Hnonempty. }
  assert (Erow : parseRows (printed [[id; ann; t1 +:+ "@@@" +:+ t2]])
                 = [[id; ann; t1]; [t2]]).
  { replace (printed [[id; ann; t1 +:+ "@@@" +:+ t2]])
      with (printed [[id; ann; t1]; [t2]]).
    - apply parseRows_printed.
      + cbn [forallb]. now rewrite Hi, Ha, H1, H2.
      + cbn [forallb]. rewrite Hnonempty.
        change (join "|||" [t2]) with t2. now rewrite Ht2.
    - cbn [printed join]. now rewrite !append_assoc. }
  split; [split | split; [|split]].
  - exact Efield.
  - now rewrite Efield.
  - exact Erow.
  - now rewrite Erow.
  - now rewrite Erow.
Qed.

Lemma separator_inside_text_witness :
  (parseRows (printed [["B1"; "A1"; "either" +:+ "|||" +:+ "or"]])
   = [["B1"; "A1"; "either"; "or"]]
   /\ List.map highlightOf
        (parseRows (printed [["B1"; "A1"; "either" +:+ "|||" +:+ "or"]]))
      = [ {| annotationId := Some "A1"; selectedText := Some "either" |} ])
  /\ (parseRows (printed [["B1"; "A1"; "either" +:+ "@@@" +:+ "or"]])
      = [["B1"; "A1"; "either"]; ["or"]]
      /\ List.map rowKey
           (parseRows (printed [["B1"; "A1"; "either" +:+ "@@@" +:+ "or"]]))
         = ["B1"; "or"]
      /\ List.map highlightOf
           (parseRows (printed [["B1"; "A1"; "either" +:+ "@@@" +:+ "or"]]))
         = [ {| annotationId := Some "A1"; selectedText := Some "either" |};
             {| annotationId := None; selectedText := None |} ]).
Proof.
  exact (separator_inside_text "B1" "A1" "either" "or" eq_refl eq_refl eq_refl).
Defined.

(** * Further properties: grouping *)

(** A turn of the reduction that completes has appended the row's highlight
    to the sequence of the row's name. *)
Lemma group_Ok (acc acc' : obj (list HighlightData)) (row : list string) :
  group acc row = Ok acc' ->
  acc' = set_own acc (rowKey row)
           (default [] (get_own acc (rowKey row)) ++ [highlightOf row]).
Proof.
  destruct (inherited (rowKey row)) eqn:Hk.
  - destruct (get_own acc (rowKey row)) as [hs|] eqn:Eown.
    + unfold group. fold (rowKey row). fold (highlightOf row).
      unfold get. rewrite Eown. simpl. rewrite Eown. now intros [= <-].
    + now rewrite group_inherited.
  - rewrite group_own by exact Hk. now intros [= <-].
Qed.

Lemma highlightCount_set_own (acc : obj (list HighlightData)) (k : string)
  (h : HighlightData) :
  highlightCount (set_own acc k (default [] (get_own acc k) ++ [h]))
  = S (highlightCount acc).
Proof.
  unfold highlightCount.
  induction acc as [|[k0 hs0] acc IH]; [reflexivity|].
  simpl. destruct (String.eqb_spec k0 k) as [->|Hne]; simpl.
  - rewrite !length_app. simpl. lia.
  - rewrite !length_app, IH. lia.
Qed.

Lemma nonempty_set_own (acc : obj (list HighlightData)) (k : string)
  (hs : list HighlightData) (h : HighlightData) :
  Forall (fun kv => kv.2 <> []) acc ->
  Forall (fun kv => kv.2 <> []) (set_own acc k (hs ++ [h])).
Proof.
  intros H. apply List.Forall_forall. intros [k' hs'] Hin.
  apply In_set_own in Hin as [[= -> ->]|Hin].
  - simpl. now destruct hs.
  - rewrite List.Forall_forall in H. now apply (H (k', hs')).
Qed.

Lemma reduce_group_count (rows : list (list string)) :
  forall acc data : obj (list HighlightData),
    reduce group rows acc = Ok data ->
    highlightCount data = highlightCount acc + List.length rows
    /\ (Forall (fun kv => kv.2 <> []) acc -> Forall (fun kv => kv.2 <> []) data).
Proof.
  induction rows as [|row rows IH]; intros acc data H.
  - simpl in H. injection H as <-. simpl. split; [lia | auto].
  - cbn [reduce] in H. destruct (group acc row) as [acc'|] eqn:Eg; [|discriminate].
    apply group_Ok in Eg. subst acc'. apply IH in H as [Hc Hn].
    rewrite highlightCount_set_own in Hc. simpl. split; [lia|].
    intros Hacc. apply Hn. now apply nonempty_set_own.
Qed.

(** X4.  Grouping neither loses nor repeats a row: when it completes, the
    sequences of the grouped map hold as many highlights together as there
    were rows, and no sequence is empty. *)
Theorem grouping_keeps_every_row (rows : list (list string))
  (data : obj (list HighlightData)) :
  annotationData rows = Ok data ->
  highlightCount data = List.length rows
  /\ Forall (fun kv => kv.2 <> []) data.
Proof.
  intros H. apply reduce_group_count in H as [Hc Hn].
  split; [exact Hc | apply Hn; constructor].
Qed.

Lemma grouping_keeps_every_row_witness :
  highlightCount
    [ ("B1", [ highlightOf ["B1"; "A1"; "Great quote"];
               highlightOf ["B1"; "A3"; "Another line"] ]);
      ("B2", [ highlightOf ["B2"; "A2"; "Elsewhere"] ]) ]
  = 3
  /\ Forall (fun kv => kv.2 <> [])
       [ ("B1", [ highlightOf ["B1"; "A1"; "Great quote"];
                  highlightOf ["B1"; "A3"; "Another line"] ]);
         ("B2", [ highlightOf ["B2"; "A2"; "Elsewhere"] ]) ].
Proof.
  exact (grouping_keeps_every_row
           [ ["B1"; "A1"; "Great quote"]; ["B2"; "A2"; "Elsewhere"];
             ["B1"; "A3"; "Another line"] ] _ eq_refl).
Defined.

(** * Further properties: the catalog query *)

Lemma append_char_inj (a b : string) (c : ascii) :
  a +:+ String c "" = b +:+ String c "" -> a = b.
Proof.
  revert b. induction a as [|x a IH]; intros [|y b] H; simpl in H.
  - reflexivity.
  - injection H as _ H. now destruct b.
  - injection H as _ H. now destruct a.
  - injection H as -> H. f_equal. now apply IH.
Qed.

Lemma quoted_inj (a b : string) : quoted a = quoted b -> a = b.
Proof.
  unfold quoted. simpl. intros [= H]. now apply append_char_inj in H.
Qed.

Lemma annotationData_rows_own (rows : list (list string))
  (data : obj (list HighlightData)) :
  annotationData rows = Ok data ->
  forallb (fun row => negb (inherited (rowKey row))) rows = true.
Proof.
  intros H. apply existsb_false_forallb.
  destruct (existsb _ rows) eqn:E; [|reflexivity].
  rewrite grouping_throws in H by exact E. discriminate.
Qed.

(** X5.  The catalog query asks for the annotated books and for no other:
    its IN-list holds, between single quotes and separated by commas, the
    book identifier of every annotation row, each identifier once. *)
Theorem catalog_query_lists_annotated_books (rows : list (list string))
  (data : obj (list HighlightData)) :
  annotationData rows = Ok data ->
  booksDataSelectQuery data
  = "SELECT ZASSETID,ZAUTHOR,ZTITLE from ZBKLIBRARYASSET where ZASSETID in ("
      +:+ join "," (uniqueBookIds data) +:+ ")"
  /\ List.NoDup (uniqueBookIds data)
  /\ (forall q, In q (uniqueBookIds data)
                <-> exists row, In row rows /\ q = quoted (rowKey row))
  /\ List.length (uniqueBookIds data)
     = List.length (distinct (List.map rowKey rows)).
Proof.
  intros H. pose proof (annotationData_rows_own _ _ H) as Hown.
  destruct (grouping_preserves_row_order rows Hown) as (data' & Hd & Hkeys & _).
  rewrite H in Hd. injection Hd as <-.
  assert (Hnd : List.NoDup (keys data)).
  { apply keys_NoDup. rewrite Hkeys. apply NoDup_distinct. }
  split; [reflexivity|]. split; [|split].
  - unfold uniqueBookIds. fold quoted.
    apply (List.NoDup_map_inv (fun q => q)). rewrite List.map_id.
    clear -Hnd. induction Hnd as [|k ks Hk Hnd IH]; simpl; constructor.
    + intros Hin. apply List.in_map_iff in Hin as (k' & E & Hk').
      apply quoted_inj in E. now subst.
    + exact IH.
  - intros q. unfold uniqueBookIds. fold quoted. rewrite List.in_map_iff. split.
    + intros (k & <- & Hk). apply (proj1 (keys_In _ _)) in Hk.
      rewrite Hkeys in Hk. apply (proj1 (In_distinct _ _)) in Hk.
      apply List.in_map_iff in Hk as (row & <- & Hrow). eauto.
    + intros (row & Hrow & ->). exists (rowKey row). split; [reflexivity|].
      apply keys_In. rewrite Hkeys. apply In_distinct. now apply List.in_map.
  - unfold uniqueBookIds, keys. rewrite !List.length_map, entries_length.
    now rewrite <- (List.length_map fst data), Hkeys.
Qed.

Lemma catalog_query_lists_annotated_books_witness :
  let data := [ ("B1", [ highlightOf ["B1"; "A1"; "Great quote"];
                         highlightOf ["B1"; "A3"; "Another line"] ]);
                ("B2", [ highlightOf ["B2"; "A2"; "Elsewhere"] ]) ] in
  let rows := [ ["B1"; "A1"; "Great quote"]; ["B2"; "A2"; "Elsewhere"];
                ["B1"; "A3"; "Another line"] ] in
  booksDataSelectQuery data
  = "SELECT ZASSETID,ZAUTHOR,ZTITLE from ZBKLIBRARYASSET where ZASSETID in ("
      +:+ join "," (uniqueBookIds data) +:+ ")"
  /\ List.NoDup (uniqueBookIds data)
  /\ (forall q, In q (uniqueBookIds data)
                <-> exists row, In row rows /\ q = quoted (rowKey row))
  /\ List.length (uniqueBookIds data)
     = List.length (distinct (List.map rowKey rows)).
Proof.
  exact (catalog_query_lists_annotated_books
           [ ["B1"; "A1"; "Great quote"]; ["B2"; "A2"; "Elsewhere"];
             ["B1"; "A3"; "Another line"] ] _ eq_refl).
Defined.

(** * Further properties: whole runs *)

Lemma dbFileName_first (pre : list string) (name : string) (post : list string) :
  forallb (fun fileName => negb (endsWith fileName ".sqlite")) pre = true ->
  endsWith name ".sqlite" = true ->
  dbFileName (pre ++ name :: post) = Some name.
Proof.
  intros Hpre Hname. unfold dbFileName. rewrite List.filter_app.
  replace (List.filter (fun fileName => endsWith fileName ".sqlite") pre)
    with (@nil string).
  - cbn [app List.filter]. rewrite Hname. cbn [hd_error].
    now rewrite (endsWith_truthy _ Hname).
  - induction pre as [|f pre IH]; [reflexivity|].
    cbn [forallb] in Hpre. apply andb_true_iff in Hpre as [Hf Hpre].
    apply negb_true_iff in Hf. cbn [List.filter]. rewrite Hf. now apply IH.
Qed.

Section WriteLoopLog.

Variable folder : string.

(** The loop issues [create] calls and no other. *)
Lemma writeBooks_calls (books : list (string * SyncedBook)) (w : world) :
  exists cs,
    calls (writeBooks folder books w).2 = calls w ++ cs
    /\ Forall (fun c => isCreate c = true) cs.
Proof.
  revert w. induction books as [|[k book] books IH]; intros w.
  - exists []. simpl. now rewrite app_nil_r.
  - rewrite writeBooks_step. destruct (render book) as [body|].
    + cbn zeta. destruct (store w !! documentPath folder book).
      * exists [Create (documentPath folder book) body]. simpl.
        split; [reflexivity | repeat constructor].
      * cbn [calls store].
        destruct (IH {| store := <[documentPath folder book := File body]> (store w);
                        calls := calls w ++ [Create (documentPath folder book) body] |})
          as (cs & Hcs & Hall).
        exists (Create (documentPath folder book) body :: cs).
        rewrite Hcs. cbn [calls]. rewrite <- app_assoc.
        split; [reflexivity | now constructor].
    + exists []. simpl. now rewrite app_nil_r.
Qed.

(** Whatever its outcome, the loop has written the documents of the books
    up to the one it stopped at, and it completes exactly when it stopped at
    none. *)
Lemma writeBooks_prefix (books : list (string * SyncedBook)) (w : world) :
  exists pre post,
    books = pre ++ post
    /\ store (writeBooks folder books w).2
       = withDocuments folder (List.map snd pre) (store w)
    /\ ((writeBooks folder books w).1 = Ok tt <-> post = []).
Proof.
  revert w. induction books as [|[k book] books IH]; intros w.
  - exists [], []. simpl. tauto.
  - rewrite writeBooks_step. destruct (render book) as [body|] eqn:Er.
    + cbn zeta. destruct (store w !! documentPath folder book).
      * exists [], ((k, book) :: books). simpl.
        split; [reflexivity|]. split; [reflexivity|]. split; discriminate.
      * cbn [calls store].
        destruct (IH {| store := <[documentPath folder book := File body]> (store w);
                        calls := calls w ++ [Create (documentPath folder book) body] |})
          as (pre & post & -> & Hstore & Hres).
        exists ((k, book) :: pre), post. split; [reflexivity|].
        rewrite Hstore. cbn [store List.map snd]. split; [|exact Hres].
        unfold withDocuments. cbn [fold_left].
        now rewrite (render_bodyOf _ _ Er).
    + exists [], ((k, book) :: books). simpl.
      split; [reflexivity|]. split; [reflexivity|]. split; discriminate.
Qed.

End WriteLoopLog.

Lemma lookup_emptied_outside (folder : string) (v : vault) (q : string) :
  q <> folder -> below folder q = false -> emptied folder v !! q = v !! q.
Proof.
  intros Hne Hq. unfold emptied. rewrite lookup_insert_ne by congruence.
  destruct (v !! folder); [|reflexivity].
  rewrite lookup_delete_recursive, decide_False by exact Hne. now rewrite Hq.
Qed.

(** X6.  When a container lists several entries, the database file of a
    run is the first entry, in listing order, whose name ends in [.sqlite]
    (a journal such as [x.sqlite-wal] does not count); the first query runs
    against the first such entry of the annotation container and any later
    query against the first such entry of the books container. *)
Theorem first_database_file_is_queried (e : env)
  (settings : AppleBooksPluginSettings) (v : vault)
  (pre : list string) (name : string) (post : list string)
  (pre' : list string) (name' : string) (post' : list string) :
  listing e (ANNOTATION_DB_FOLDER_ABSOLUTE_PATH e) = pre ++ name :: post ->
  forallb (fun fileName => negb (endsWith fileName ".sqlite")) pre = true ->
  endsWith name ".sqlite" = true ->
  listing e (BOOKS_DB_FOLDER_ABSOLUTE_PATH e) = pre' ++ name' :: post' ->
  forallb (fun fileName => negb (endsWith fileName ".sqlite")) pre' = true ->
  endsWith name' ".sqlite" = true ->
  exists rest,
    calls (run e settings v).2
    = [ Readdir (ANNOTATION_DB_FOLDER_ABSOLUTE_PATH e);
        Readdir (BOOKS_DB_FOLDER_ABSOLUTE_PATH e);
        Exec (sqlite3 (path_join (ANNOTATION_DB_FOLDER_ABSOLUTE_PATH e) name)
                annotationDataSelectQuery) ] ++ rest
    /\ forall command, In (Exec command) rest ->
         exists data,
           command
           = sqlite3 (path_join (BOOKS_DB_FOLDER_ABSOLUTE_PATH e) name')
               (booksDataSelectQuery data).
Proof.
  intros Ha Hpre Hname Hb Hpre' Hname'.
  rewrite run_unfold. cbv zeta.
  rewrite Ha, Hb, (dbFileName_first _ _ _ Hpre Hname),
    (dbFileName_first _ _ _ Hpre' Hname').
  fold (annotationQuery e name).
  destruct (exec e (annotationQuery e name)) as [out1|];
    [|exists []; split; [reflexivity | intros ? []]].
  destruct (annotationData (parseRows out1)) as [data|];
    [|exists []; split; [reflexivity | intros ? []]].
  destruct (exec e (booksQuery e name' data)) as [out2|].
  2:{ exists [Exec (booksQuery e name' data)]. split; [reflexivity|].
      intros command [[= <-]|[]]. now exists data. }
  destruct (writeBooks_calls (highlightsFolder settings)
              (entries (finalData data (parseRows out2)))
              {| store := emptied (highlightsFolder settings) v;
                 calls := queryCalls e name name' data
                            ++ replaceCalls (highlightsFolder settings) v |})
    as (cs & Hcs & Hall).
  assert (Hexec : forall command tail,
            (forall c, In c tail -> exists m, c = NewNotice m) ->
            In (Exec command)
               ((Exec (booksQuery e name' data)
                   :: replaceCalls (highlightsFolder settings) v) ++ cs ++ tail) ->
            exists data', command
              = sqlite3 (path_join (BOOKS_DB_FOLDER_ABSOLUTE_PATH e) name')
                  (booksDataSelectQuery data')).
  { intros command tail Htail Hin.
    rewrite !List.in_app_iff in Hin. destruct Hin as [[[= <-]|Hin]|[Hin|Hin]].
    - now exists data.
    - unfold replaceCalls in Hin. simpl in Hin.
      destruct (v !! highlightsFolder settings); simpl in Hin;
        intuition discriminate.
    - rewrite List.Forall_forall in Hall. apply Hall in Hin. discriminate.
    - apply Htail in Hin as [m Hm]. discriminate. }
  destruct (writeBooks _ _ _) as [[[]|err] w] eqn:Eloop; cbn [snd calls] in *.
  - exists ((Exec (booksQuery e name' data)
               :: replaceCalls (highlightsFolder settings) v)
            ++ cs ++ [NewNotice finished]).
    split.
    + rewrite Hcs. unfold queryCalls. cbn [app]. now rewrite <- !app_assoc.
    + intros command. apply Hexec. intros c [<-|[]]. eauto.
  - exists ((Exec (booksQuery e name' data)
               :: replaceCalls (highlightsFolder settings) v) ++ cs ++ []).
    split.
    + rewrite Hcs. unfold queryCalls. cbn [app]. now rewrite app_nil_r.
    + intros command. apply Hexec. intros c [].
Qed.

Lemma first_database_file_is_queried_witness :
  exists rest,
    calls (run oneBook DEFAULT_SETTINGS withNote).2
    = [ Readdir (ANNOTATION_DB_FOLDER_ABSOLUTE_PATH oneBook);
        Readdir (BOOKS_DB_FOLDER_ABSOLUTE_PATH oneBook);
        Exec (sqlite3 (path_join (ANNOTATION_DB_FOLDER_ABSOLUTE_PATH oneBook)
                         annotationsFile)
                annotationDataSelectQuery) ] ++ rest
    /\ forall command, In (Exec command) rest ->
         exists data,
           command
           = sqlite3 (path_join (BOOKS_DB_FOLDER_ABSOLUTE_PATH oneBook)
                        libraryFile)
               (booksDataSelectQuery data).
Proof.
  apply (first_database_file_is_queried oneBook DEFAULT_SETTINGS withNote
           [] annotationsFile [annotationsFile +:+ "-wal"]
           [] libraryFile []); reflexivity.
Defined.

(** X7.  Whatever a run does and however it ends, it leaves alone what
    the vault holds outside the destination folder: every path that is not
    the folder and does not lie below it holds after the run what it held
    before. *)
Theorem run_keeps_rest_of_vault (e : env)
  (settings : AppleBooksPluginSettings) (v : vault) (q : string) :
  q <> highlightsFolder settings ->
  below (highlightsFolder settings) q = false ->
  store (run e settings v).2 !! q = v !! q.
Proof.
  intros Hne Hq. rewrite run_unfold. cbv zeta.
  destruct (dbFileName (listing e (ANNOTATION_DB_FOLDER_ABSOLUTE_PATH e)))
    as [a|]; [|reflexivity].
  destruct (dbFileName (listing e (BOOKS_DB_FOLDER_ABSOLUTE_PATH e)))
    as [b|]; [|reflexivity].
  destruct (exec e (annotationQuery e a)) as [out1|]; [|reflexivity].
  destruct (annotationData (parseRows out1)) as [data|]; [|reflexivity].
  destruct (exec e (booksQuery e b data)) as [out2|]; [|reflexivity].
  pose proof (writeBooks_frame (highlightsFolder settings)
                (entries (finalData data (parseRows out2)))
                {| store := emptied (highlightsFolder settings) v;
                   calls := queryCalls e a b data
                              ++ replaceCalls (highlightsFolder settings) v |}
                q Hq) as Hframe.
  cbn [store] in Hframe. rewrite (lookup_emptied_outside _ _ _ Hne Hq) in Hframe.
  destruct (writeBooks _ _ _) as [[[]|err] w]; exact Hframe.
Qed.

Lemma run_keeps_rest_of_vault_witness :
  store (run sameTitle DEFAULT_SETTINGS
           (<["Diary/Monday.md" := File "dear diary"]> withNote)).2
    !! "Diary/Monday.md"
  = (<["Diary/Monday.md" := File "dear diary"]> withNote) !! "Diary/Monday.md".
Proof.
  apply (run_keeps_rest_of_vault sameTitle DEFAULT_SETTINGS); [discriminate|].
  reflexivity.
Defined.

(** X8.  The vault is not touched before both queries have been answered
    and the annotations grouped: a run that does not get that far (a
    database file missing, a query rejected, grouping thrown) issues no call
    to the vault and leaves the store as it was. *)
Theorem no_vault_call_before_queries (e : env)
  (settings : AppleBooksPluginSettings) (v : vault) :
  syncedBooks e = None ->
  store (run e settings v).2 = v
  /\ Forall (fun c => isVaultCall c = false) (calls (run e settings v).2).
Proof.
  unfold syncedBooks. rewrite run_unfold. cbv zeta.
  destruct (dbFileName (listing e (ANNOTATION_DB_FOLDER_ABSOLUTE_PATH e)))
    as [a|]; [|intros _; split; [reflexivity | repeat constructor]].
  destruct (dbFileName (listing e (BOOKS_DB_FOLDER_ABSOLUTE_PATH e)))
    as [b|]; [|intros _; split; [reflexivity | repeat constructor]].
  destruct (exec e (annotationQuery e a)) as [out1|];
    [|intros _; split; [reflexivity | repeat constructor]].
  destruct (annotationData (parseRows out1)) as [data|];
    [|intros _; split; [reflexivity | repeat constructor]].
  destruct (exec e (booksQuery e b data)) as [out2|];
    [discriminate | intros _; split; [reflexivity | repeat constructor]].
Qed.

Lemma no_vault_call_before_queries_witness :
  let e := answering (Some "B1|||A1|||Great quote@@@") None in
  store (run e DEFAULT_SETTINGS withNote).2 = withNote
  /\ Forall (fun c => isVaultCall c = false)
       (calls (run e DEFAULT_SETTINGS withNote).2).
Proof.
  exact (no_vault_call_before_queries
           (answering (Some "B1|||A1|||Great quote@@@") None)
           DEFAULT_SETTINGS withNote eq_refl).
Defined.

Lemma create_not_notice (cs : list call) :
  Forall (fun c => isCreate c = true) cs ->
  Forall (fun c => isNotice c = false) cs.
Proof.
  apply List.Forall_impl. intros c. now destruct c.
Qed.

Lemma queries_not_notice (e : env) (a b : string)
  (data : obj (list HighlightData)) (folder : string) (v : vault) :
  Forall (fun c => isNotice c = false)
    (queryCalls e a b data ++ replaceCalls folder v).
Proof.
  unfold queryCalls, replaceCalls. destruct (v !! folder); repeat constructor.
Qed.

(** X9.  A run shows at most one notice, and only as its last call: a run
    that returns ends with one of the three notices (annotations not found,
    books not found, finished); a run that throws shows no notice at all, so
    a failed sync tells the user nothing. *)
Theorem notice_ends_a_run (e : env)
  (settings : AppleBooksPluginSettings) (v : vault) :
  match (run e settings v).1 with
  | Ok _ =>
      exists before message,
        calls (run e settings v).2 = before ++ [NewNotice message]
        /\ Forall (fun c => isNotice c = false) before
        /\ (message = annotationsNotFound
            \/ message = booksNotFound
            \/ message = finished)
  | Throw _ => Forall (fun c => isNotice c = false) (calls (run e settings v).2)
  end.
Proof.
  rewrite run_unfold. cbv zeta.
  destruct (dbFileName (listing e (ANNOTATION_DB_FOLDER_ABSOLUTE_PATH e)))
    as [a|].
  2:{ cbn [fst snd calls].
      exists [Readdir (ANNOTATION_DB_FOLDER_ABSOLUTE_PATH e)], annotationsNotFound.
      split; [reflexivity|]. split; [repeat constructor | tauto]. }
  destruct (dbFileName (listing e (BOOKS_DB_FOLDER_ABSOLUTE_PATH e)))
    as [b|].
  2:{ cbn [fst snd calls].
      exists [Readdir (ANNOTATION_DB_FOLDER_ABSOLUTE_PATH e);
              Readdir (BOOKS_DB_FOLDER_ABSOLUTE_PATH e)], booksNotFound.
      split; [reflexivity|]. split; [repeat constructor | tauto]. }
  destruct (exec e (annotationQuery e a)) as [out1|];
    [|cbn [fst snd calls]; repeat constructor].
  destruct (annotationData (parseRows out1)) as [data|];
    [|cbn [fst snd calls]; repeat constructor].
  destruct (exec e (booksQuery e b data)) as [out2|];
    [|cbn [fst snd calls]; repeat constructor].
  destruct (writeBooks_calls (highlightsFolder settings)
              (entries (finalData data (parseRows out2)))
              {| store := emptied (highlightsFolder settings) v;
                 calls := queryCalls e a b data
                            ++ replaceCalls (highlightsFolder settings) v |})
    as (cs & Hcs & Hall).
  apply create_not_notice in Hall.
  pose proof (queries_not_notice e a b data (highlightsFolder settings) v) as Hq.
  destruct (writeBooks _ _ _) as [[[]|err] w]; cbn [fst snd calls] in *.
  - exists (calls w), finished. split; [reflexivity|]. split; [|tauto].
    rewrite Hcs. now apply List.Forall_app.
  - rewrite Hcs. now apply List.Forall_app.
Qed.

(** X10.  The write phase has no rollback, and what it replaced is gone
    however it ends.  In a run that joins books, the store afterwards is the
    emptied destination folder with the documents of the books up to the one
    the loop stopped at; the run returns exactly when the loop stopped at
    none; and below the folder nothing remains of what the vault held
    before. *)
Theorem write_phase_has_no_rollback (e : env)
  (settings : AppleBooksPluginSettings) (v : vault) (books : list SyncedBook) :
  let folder := highlightsFolder settings in
  rooted v folder ->
  syncedBooks e = Some books ->
  exists written rest,
    books = written ++ rest
    /\ store (run e settings v).2
       = withDocuments folder written (emptied folder v)
    /\ ((run e settings v).1 = Ok tt <-> rest = [])
    /\ store (run e settings v).2 !! folder = Some Folder
    /\ (forall q, below folder q = true ->
          is_Some (store (run e settings v).2 !! q) ->
          In q (List.map (documentPath folder) written)).
Proof.
  intros folder Hr Hbooks.
  destruct (run_writes e settings v books Hbooks)
    as (a & b & data & final & -> & Hrun).
  rewrite Hrun. fold folder.
  destruct (writeBooks_prefix folder (entries final)
              {| store := emptied folder v;
                 calls := queryCalls e a b data ++ replaceCalls folder v |})
    as (pre & post & Esplit & Hstore & Hres).
  cbn [store] in Hstore.
  exists (List.map snd pre), (List.map snd post).
  assert (Hother : forall q,
            ~ In q (List.map (documentPath folder) (List.map snd pre)) ->
            withDocuments folder (List.map snd pre) (emptied folder v) !! q
            = emptied folder v !! q)
    by (intros q; apply lookup_withDocuments_other).
  assert (Hw : store (match writeBooks folder (entries final)
                              {| store := emptied folder v;
                                 calls := queryCalls e a b data
                                            ++ replaceCalls folder v |}
                      with
                      | (Ok _, w) =>
                          (Ok tt, {| store := store w;
                                     calls := calls w ++ [NewNotice finished] |})
                      | (Throw err, w) => (Throw err, w)
                      end).2
               = withDocuments folder (List.map snd pre) (emptied folder v)
               /\ ((match writeBooks folder (entries final)
                            {| store := emptied folder v;
                               calls := queryCalls e a b data
                                          ++ replaceCalls folder v |}
                    with
                    | (Ok _, w) =>
                        (Ok tt, {| store := store w;
                                   calls := calls w ++ [NewNotice finished] |})
                    | (Throw err, w) => (Throw err, w)
                    end).1 = Ok tt <-> post = [])).
  { destruct (writeBooks folder (entries final) _) as [[[]|err] w];
      cbn [fst snd store] in *; split; try exact Hstore; exact Hres. }
  destruct Hw as [Hw1 Hw2]. rewrite Hw1.
  split; [now rewrite Esplit, List.map_app|]. split; [reflexivity|].
  split; [|split].
  - rewrite Hw2. split; [now intros -> | intros E].
    now destruct post.
  - rewrite Hother.
    + unfold emptied. apply lookup_insert_eq.
    + intros Hin. apply List.in_map_iff in Hin as (book & E & _).
      now apply documentPath_not_folder in E.
  - intros q Hq [x Hx].
    destruct (in_dec string_dec q
                (List.map (documentPath folder) (List.map snd pre)))
      as [Hin|Hnin]; [exact Hin|].
    rewrite (Hother _ Hnin), (lookup_emptied _ _ _ Hr), Hq in Hx.
    destruct (decide (q = folder)) as [->|]; [|discriminate].
    rewrite below_irrefl in Hq. discriminate.
Qed.

Lemma write_phase_has_no_rollback_witness :
  exists written rest,
    [ bookOf ["B1"; "Ann"; "Same Title"]
        [ {| annotationId := Some "A1"; selectedText := Some "first" |} ];
      bookOf ["B2"; "Bob"; "Same Title"]
        [ {| annotationId := Some "A2"; selectedText := Some "second" |} ] ]
    = written ++ rest
    /\ store (run sameTitle DEFAULT_SETTINGS withNote).2
       = withDocuments "Apple Books Highlights" written
           (emptied "Apple Books Highlights" withNote)
    /\ ((run sameTitle DEFAULT_SETTINGS withNote).1 = Ok tt <-> rest = [])
    /\ store (run sameTitle DEFAULT_SETTINGS withNote).2
         !! "Apple Books Highlights" = Some Folder
    /\ (forall q, below "Apple Books Highlights" q = true ->
          is_Some (store (run sameTitle DEFAULT_SETTINGS withNote).2 !! q) ->
          In q (List.map (documentPath "Apple Books Highlights") written)).
Proof.
  apply (write_phase_has_no_rollback sameTitle DEFAULT_SETTINGS withNote).
  - intros H. vm_compute in H. discriminate H.
  - vm_compute. reflexivity.
Defined.



(** * Further properties: the plugin *)

(** X12.  What the settings tab changes is saved and comes back after a
    restart: a plugin created anew over the saved data loads the folder (or
    the startup flag) last chosen, with the other setting as it was; and in
    general saving then loading gives back the settings in force. *)
Theorem settings_survive_restart (p : Plugin.plugin) (v : vault) :
  (forall value,
     Plugin.settings
       (Plugin.loadSettings
          (Plugin.fresh (Plugin.data (Plugin.onFolderChange value p).2) v)).2
     = {| highlightsFolder := value;
          syncOnStartup := syncOnStartup (Plugin.settings p) |})
  /\ (forall value,
        Plugin.settings
          (Plugin.loadSettings
             (Plugin.fresh (Plugin.data (Plugin.onToggleChange value p).2) v)).2
        = {| highlightsFolder := highlightsFolder (Plugin.settings p);
             syncOnStartup := value |})
  /\ Plugin.settings
       (Plugin.loadSettings
          (Plugin.fresh (Plugin.data (Plugin.saveSettings p).2) v)).2
     = Plugin.settings p.
Proof.
  repeat split. simpl. now destruct (Plugin.settings p).
Qed.

(** X13.  Unless the saved data turn the startup flag on, loading the
    plugin touches neither the file system nor the vault: it loads the
    settings (the defaults where nothing is saved) and registers the
    settings tab, the command and the ribbon icon, in this order. *)
Theorem onload_without_startup_sync (e : env)
  (d : option Plugin.savedData) (v : vault) :
  syncOnStartup (Plugin.assignDefaults d) = false ->
  Plugin.onload e (Plugin.fresh d v)
  = (Ok tt,
     {| Plugin.settings := Plugin.assignDefaults d;
        Plugin.data := d;
        Plugin.registered :=
          [ Plugin.SettingTab;
            Plugin.Command "obsidian-apple-books-plugin-sync-highlights"
              "Sync highlights";
            Plugin.RibbonIcon "book" "Apple Books Sync Highlights" ];
        Plugin.host := {| store := v; calls := [] |} |}).
Proof.
  intros H. unfold Plugin.onload, Plugin.andThen, Plugin.loadSettings.
  cbn [Plugin.settings Plugin.fresh Plugin.data]. rewrite H. reflexivity.
Qed.

Lemma onload_without_startup_sync_witness :
  Plugin.onload oneBook (Plugin.fresh None withNote)
  = (Ok tt,
     {| Plugin.settings := DEFAULT_SETTINGS;
        Plugin.data := None;
        Plugin.registered :=
          [ Plugin.SettingTab;
            Plugin.Command "obsidian-apple-books-plugin-sync-highlights"
              "Sync highlights";
            Plugin.RibbonIcon "book" "Apple Books Sync Highlights" ];
        Plugin.host := {| store := withNote; calls := [] |} |}).
Proof.
  exact (onload_without_startup_sync oneBook None withNote eq_refl).
Defined.

(** X14.  With the startup flag saved as on, loading the plugin runs one
    sync with the loaded settings before it registers anything.  If that
    sync throws (a query rejected, a title taken twice), loading stops
    there: neither the settings tab, nor the command, nor the ribbon icon is
    registered.  If it returns, the three are registered. *)
Theorem onload_with_startup_sync (e : env)
  (d : option Plugin.savedData) (v : vault) :
  syncOnStartup (Plugin.assignDefaults d) = true ->
  let sync := run e (Plugin.assignDefaults d) v in
  let loaded := Plugin.onload e (Plugin.fresh d v) in
  loaded.1 = sync.1
  /\ Plugin.host loaded.2 = sync.2
  /\ Plugin.settings loaded.2 = Plugin.assignDefaults d
  /\ Plugin.registered loaded.2
     = match sync.1 with
       | Ok _ =>
           [ Plugin.SettingTab;
             Plugin.Command "obsidian-apple-books-plugin-sync-highlights"
               "Sync highlights";
             Plugin.RibbonIcon "book" "Apple Books Sync Highlights" ]
       | Throw _ => []
       end.
Proof.
  intros H sync loaded. unfold loaded, sync, run.
  unfold Plugin.onload, Plugin.andThen, Plugin.loadSettings,
    Plugin.syncHighlights.
  cbn [Plugin.settings Plugin.fresh Plugin.data Plugin.host Plugin.registered].
  rewrite H.
  destruct (syncHighlights e (Plugin.assignDefaults d)
              {| store := v; calls := [] |}) as [[[]|err] w];
    repeat split.
Qed.

Lemma onload_with_startup_sync_witness :
  let d := Some {| Plugin.savedHighlightsFolder := None;
                   Plugin.savedSyncOnStartup := Some true |} in
  let sync := run (answering None None) (Plugin.assignDefaults d) withNote in
  let loaded := Plugin.onload (answering None None) (Plugin.fresh d withNote) in
  loaded.1 = sync.1
  /\ Plugin.host loaded.2 = sync.2
  /\ Plugin.settings loaded.2 = Plugin.assignDefaults d
  /\ Plugin.registered loaded.2
     = match sync.1 with
       | Ok _ =>
           [ Plugin.SettingTab;
             Plugin.Command "obsidian-apple-books-plugin-sync-highlights"
               "Sync highlights";
             Plugin.RibbonIcon "book" "Apple Books Sync Highlights" ]
       | Throw _ => []
       end.
Proof.
  exact (onload_with_startup_sync (answering None None)
           (Some {| Plugin.savedHighlightsFolder := None;
                    Plugin.savedSyncOnStartup := Some true |})
           withNote eq_refl).
Defined.

